(** * Doc-AI-Assistant: the ingestion and query scripts, embedded and verified

    [scripts/setup_vectorstore.py] (class [DocumentProcessor]) and
    [scripts/langchain_rag.py] (class [LangChainRAGSystem], [api_mode] and the
    [__main__] dispatch) are embedded as Rocq functions.  Python dictionaries
    are finite maps, Python lists are lists, [try]/[except] is an error monad
    over an explicit state, and the services the scripts talk to (PDF loader,
    text splitter, vector index, language model) are parameters of the
    sections that use them. *)

From Stdlib Require Import ZArith Ascii String DecimalString.
From stdpp Require Import base option list gmap strings sets sorting.

Local Open Scope string_scope.
Local Open Scope list_scope.

(** ** Python values *)

(** The values the scripts keep in a metadata dictionary: [str] and [int]. *)
Inductive value : Type :=
  | VStr (s : string)
  | VInt (n : Z).

#[global] Instance value_eq_dec : EqDecision value.
Proof. solve_decision. Defined.

#[global] Instance value_countable : Countable value.
Proof.
  refine (inj_countable'
            (λ v, match v with VStr s => inl s | VInt n => inr n end)
            (λ x, match x with inl s => VStr s | inr n => VInt n end) _).
  by intros [].
Defined.

(** Python truthiness, as used by [if url and ...]. *)
Definition truthy (v : value) : bool :=
  match v with
  | VStr s => negb (String.eqb s "")
  | VInt n => negb (n =? 0)%Z
  end.

(** [str(v)] as an f-string renders it. *)
Definition Z_to_string (n : Z) : string := NilZero.string_of_int (Z.to_int n).

Definition py_str (v : value) : string :=
  match v with
  | VStr s => s
  | VInt n => Z_to_string n
  end.

(** [d.get(k, default)] on a dictionary. *)
Definition dict_get {V} (d : gmap string V) (k : string) (dflt : V) : V :=
  default dflt (d !! k).

(** A LangChain [Document]: text plus a metadata dictionary. *)
Record Document : Type := mkDocument {
  page_content : string;
  metadata : gmap string value
}.

(** ** Strings *)

(** [str.lower()] on the ASCII range; other characters are left as they are. *)
Definition lower_ascii (c : ascii) : ascii :=
  let n := nat_of_ascii c in
  if (65 <=? n)%nat && (n <=? 90)%nat then ascii_of_nat (n + 32) else c.

Fixpoint lower (s : string) : string :=
  match s with
  | EmptyString => EmptyString
  | String c s' => String (lower_ascii c) (lower s')
  end.

(** [needle in s] for Python strings. *)
Fixpoint str_in (needle s : string) : bool :=
  String.prefix needle s ||
  match s with
  | EmptyString => false
  | String _ s' => str_in needle s'
  end.

(** [s.replace(old, "")]: every non-overlapping occurrence of [old], scanned
    from the left, is removed.  [skip] counts the characters of a matched
    occurrence that are still to be dropped. *)
Fixpoint remove_from (old : string) (skip : nat) (s : string) : string :=
  match s with
  | EmptyString => EmptyString
  | String c s' =>
      match skip with
      | S k => remove_from old k s'
      | O =>
          if String.prefix old s && negb (String.eqb old "")
          then remove_from old (String.length old - 1) s'
          else String c (remove_from old 0 s')
      end
  end.

Definition remove_all (old s : string) : string := remove_from old 0 s.

(** [os.path.basename]: what follows the last slash. *)
Fixpoint basename_from (acc s : string) : string :=
  match s with
  | EmptyString => acc
  | String c s' =>
      if Ascii.eqb c "/"%char then basename_from s' s' else basename_from acc s'
  end.

Definition basename (p : string) : string := basename_from p p.

(** [l[:n]] for a Python list, negative [n] counting from the end. *)
Definition slice_to {A} (n : Z) (l : list A) : list A :=
  if (n <? 0)%Z then take (Z.to_nat (Z.of_nat (length l) + n)) l
  else take (Z.to_nat n) l.

(** ** Exceptions *)

(** A raised Python exception, an instance of [Exception] (what an
    [except Exception] clause catches), identified by what [str(e)] prints. *)
Inductive exn : Type := Exception (msg : string).

Definition str_exn (e : exn) : string := let 'Exception m := e in m.

Inductive result (A : Type) : Type :=
  | Ok (a : A)
  | Raise (e : exn).
Arguments Ok {A} a.
Arguments Raise {A} e.

Definition quote : string := String "034"%char EmptyString.

(** * scripts/setup_vectorstore.py *)

Module SetupVectorstore.

Record DocumentProcessor : Type := mkProcessor {
  max_pages : Z;
  chunk_size : Z;
  chunk_overlap : Z;
  doc_urls : gmap string string
}.

(** [DocumentProcessor.__init__] with its default arguments overridable. *)
Definition init (max_pages chunk_size chunk_overlap : Z) : DocumentProcessor :=
  {| max_pages := max_pages;
     chunk_size := chunk_size;
     chunk_overlap := chunk_overlap;
     doc_urls :=
       <["troubleshoot-azure-virtual-machines-windows" :=
           "https://learn.microsoft.com/azure/virtual-machines/troubleshooting"]>
       (<["windows-server-identity" :=
           "https://learn.microsoft.com/windows-server/identity"]>
       (<["security-operations" :=
           "https://learn.microsoft.com/security/operations"]>
       (<["troubleshoot-microsoft-365-admintoc" :=
           "https://learn.microsoft.com/microsoft-365/admin"]> ∅))) |}.

Definition default_processor : DocumentProcessor := init 50 500 50.

(** [_classify_doc_type]: an [if]/[elif] chain over the lower-cased name. *)
Definition _classify_doc_type (doc_name : string) : string :=
  let name := lower doc_name in
  if str_in "troubleshoot" name then "Troubleshooting"
  else if str_in "identity" name then "Authentication"
  else if str_in "security" name then "Security"
  else if str_in "admin" name then "Administration"
  else "General".

(** The same classification written as the specification words it: an ordered
    list of (keyword, type) rules, the first rule whose keyword occurs in the
    lower-cased name wins, [General] when none does. *)
Definition rules : list (string * string) :=
  [ ("troubleshoot", "Troubleshooting");
    ("identity", "Authentication");
    ("security", "Security");
    ("admin", "Administration") ].

Fixpoint first_match (rs : list (string * string)) (name : string) : string :=
  match rs with
  | [] => "General"
  | (kw, ty) :: rs' => if str_in kw name then ty else first_match rs' name
  end.

Definition classify_by_rules (doc_name : string) : string :=
  first_match rules (lower doc_name).

(** [chunk.metadata.get('page', 0) + 1]: integer addition, a [TypeError] when
    the stored page is a string. *)
Definition page_number_of (md : gmap string value) : result value :=
  match dict_get md "page" (VInt 0) with
  | VInt n => Ok (VInt (n + 1))
  | VStr _ =>
      Raise (Exception ("can only concatenate str (not " +:+ quote +:+ "int"
                        +:+ quote +:+ ") to str"))
  end.

(** The body of the [for i, chunk in enumerate(chunks)] loop. *)
Definition tag_chunk (self : DocumentProcessor) (doc_name : string)
    (i : nat) (chunk : Document) : result Document :=
  match page_number_of (metadata chunk) with
  | Raise e => Raise e
  | Ok pn =>
      Ok {| page_content := page_content chunk;
            metadata :=
              <["chunk_id" := VInt (Z.of_nat i)]>
              (<["page_number" := pn]>
              (<["doc_url" := VStr (dict_get (doc_urls self) doc_name "")]>
              (<["doc_type" := VStr (_classify_doc_type doc_name)]>
              (<["doc_name" := VStr doc_name]> (metadata chunk))))) |}
  end.

Fixpoint tag_chunks (self : DocumentProcessor) (doc_name : string)
    (i : nat) (chunks : list Document) : result (list Document) :=
  match chunks with
  | [] => Ok []
  | c :: cs =>
      match tag_chunk self doc_name i c with
      | Raise e => Raise e
      | Ok c' =>
          match tag_chunks self doc_name (S i) cs with
          | Raise e => Raise e
          | Ok cs' => Ok (c' :: cs')
          end
      end
  end.

Section Processor.

(** [PyPDFLoader(pdf_path).load()]: one [Document] per page of the file. *)
Variable load : string → list Document.

(** [RecursiveCharacterTextSplitter(chunk_size, chunk_overlap, ...)
    .split_text]: the pieces of one page's text. *)
Variable split_text : Z → Z → string → list string.

(** [TextSplitter.split_documents]: every page is split on its own and each
    piece carries a copy of its page's metadata. *)
Definition split_documents (self : DocumentProcessor)
    (pages : list Document) : list Document :=
  pages ≫= λ p,
    (λ t, {| page_content := t; metadata := metadata p |})
      <$> split_text (chunk_size self) (chunk_overlap self) (page_content p).

Definition process_pdf (self : DocumentProcessor) (pdf_path : string)
    : result (list Document) :=
  let doc_name := remove_all ".pdf" (basename pdf_path) in
  let pages := load pdf_path in
  let pages :=
    if (max_pages self <? Z.of_nat (length pages))%Z
    then slice_to (max_pages self) pages else pages in
  let chunks := split_documents self pages in
  tag_chunks self doc_name 0 chunks.

End Processor.

(** What [PyPDFLoader] puts under the key [page]: the 0-based index of the
    page, an integer.  A document without the key counts as page 0. *)
Definition zero_based_page (d : Document) : bool :=
  match metadata d !! "page" with
  | None => true
  | Some (VInt n) => (0 <=? n)%Z
  | Some (VStr _) => false
  end.

(** A one-page file and a splitter that keeps short texts whole, to run the
    processor on. *)
Definition sample_load (pdf_path : string) : list Document :=
  [ {| page_content :=
         "Reset a user password by running the reset-password command.";
       metadata := <["page" := VInt 0]> (<["source" := VStr pdf_path]> ∅) |} ].

Definition sample_split (size overlap : Z) (text : string) : list string :=
  [text].

(** [s.endswith(suffix)]: some tail of [s] is [suffix]. *)
Fixpoint ends_with (suffix s : string) : bool :=
  String.eqb suffix s ||
  match s with
  | EmptyString => false
  | String _ s' => ends_with suffix s'
  end.

Definition starts_with (pre s : string) : bool := String.prefix pre s.

(** [os.path.join(a, b)] on a POSIX system. *)
Definition path_join (a b : string) : string :=
  if starts_with "/" b then b
  else if String.eqb a "" || ends_with "/" a then a +:+ b
  else a +:+ "/" +:+ b.

(** The test of the list comprehension: [f.lower().endswith('.pdf')]. *)
Definition is_pdf (f : string) : bool := ends_with ".pdf" (lower f).

(** The name [process_pdf] gives the document of a file. *)
Definition doc_name_of (pdf_path : string) : string :=
  remove_all ".pdf" (basename pdf_path).

Section Corpus.

Variable load : string → list Document.
Variable split_text : Z → Z → string → list string.

(** [os.path.exists] and [os.listdir]. *)
Variable path_exists : string → bool.
Variable listdir : string → result (list string).

(** The [for pdf_file in pdf_files] loop, on the accumulator [all_chunks]. *)
Fixpoint extend_all (self : DocumentProcessor) (docs_dir : string)
    (pdf_files : list string) (all_chunks : list Document)
    : result (list Document) :=
  match pdf_files with
  | [] => Ok all_chunks
  | pdf_file :: rest =>
      match process_pdf load split_text self (path_join docs_dir pdf_file) with
      | Raise e => Raise e
      | Ok chunks => extend_all self docs_dir rest (all_chunks ++ chunks)
      end
  end.

Definition process_all_documents (self : DocumentProcessor)
    (docs_dir : string) : result (list Document) :=
  if negb (path_exists docs_dir)
  then Raise (Exception ("Directory not found: " +:+ docs_dir))
  else
    match listdir docs_dir with
    | Raise e => Raise e
    | Ok names =>
        match List.filter is_pdf names with
        | [] => Raise (Exception ("No PDF files found in " +:+ docs_dir))
        | pdf_files => extend_all self docs_dir pdf_files []
        end
    end.

(** The services the set-up reaches: the embeddings client is built from the
    API key, the vector store is created from the chunks under the index
    name.  Either may raise. *)
Variable World : Type.
Variable embeddings_init : World → option string → World * result unit.
Variable from_documents :
  World → list Document → option string → World * result unit.

(** [setup_vectorstore()]: [True] or [False]; the log lines are not part of
    the model. *)
Definition setup_vectorstore (env : gmap string string) (w : World)
    : World * bool :=
  match process_all_documents (init 50 500 50) "data/demo_docs" with
  | Raise _ => (w, false)
  | Ok all_chunks =>
      match embeddings_init w (env !! "OPENAI_API_KEY") with
      | (w1, Raise _) => (w1, false)
      | (w1, Ok _) =>
          match from_documents w1 all_chunks (env !! "PINECONE_INDEX_NAME") with
          | (w2, Raise _) => (w2, false)
          | (w2, Ok _) => (w2, true)
          end
      end
  end.

Definition required_vars : list string :=
  ["OPENAI_API_KEY"; "PINECONE_API_KEY"; "PINECONE_INDEX_NAME"].

(** [not os.getenv(var)]: unset, or set to the empty string. *)
Definition unset (env : gmap string string) (var : string) : bool :=
  match env !! var with
  | None => true
  | Some v => String.eqb v ""
  end.

Definition missing_vars (env : gmap string string) : list string :=
  List.filter (unset env) required_vars.

(** [main()] of the set-up script: the world afterwards and the exit status. *)
Definition main (env : gmap string string) (w : World) : World * Z :=
  match missing_vars env with
  | _ :: _ => (w, 1%Z)
  | [] =>
      let '(w', success) := setup_vectorstore env w in
      if success then (w', 0%Z) else (w', 1%Z)
  end.

End Corpus.

(** A directory listing and a loader to run the corpus functions on. *)
Definition sample_exists (dir : string) : bool := String.eqb dir "data/demo_docs".

Definition sample_listdir (dir : string) : result (list string) :=
  Ok ["security-operations.pdf"; "README.md"; "Release-Notes.PDF"].

Definition sample_env : gmap string string :=
  <["OPENAI_API_KEY" := "sk-test"]>
  (<["PINECONE_API_KEY" := "pc-test"]>
  (<["PINECONE_INDEX_NAME" := "itdoc"]> ∅)).

(** Services that always succeed, in a world counting the chunks stored. *)
Definition sample_embeddings (w : nat) (key : option string)
    : nat * result unit := (w, Ok tt).

Definition sample_from_documents (w : nat) (chunks : list Document)
    (index_name : option string) : nat * result unit :=
  (w + length chunks, Ok tt).

Definition sample_path : string := "data/demo_docs/security-operations.pdf".

(** What the processor returns for the sample file, and its first chunk. *)
Definition sample_chunks : list Document :=
  match process_pdf sample_load sample_split default_processor sample_path with
  | Ok chunks => chunks
  | Raise _ => []
  end.

Definition sample_chunk : Document :=
  default {| page_content := ""; metadata := ∅ |} (head sample_chunks).

End SetupVectorstore.

(** * scripts/langchain_rag.py *)

Module LangchainRag.

(** LangChain chat messages. *)
Inductive message : Type :=
  | SystemMessage (content : string)
  | HumanMessage (content : string)
  | AIMessage (content : string).

Definition content (m : message) : string :=
  match m with
  | SystemMessage c | HumanMessage c | AIMessage c => c
  end.

(** One citation, the dictionary [{"title": title, "url": url}]. *)
Record Reference : Type := mkReference {
  title : string;
  url : value
}.

(** The fields of the dictionary [ask_question] returns: strings and a list
    of citations.  The dictionary itself keeps its keys in insertion order,
    which is the order [json.dumps] prints them in. *)
Inductive field : Type :=
  | FStr (s : string)
  | FList (l : list Reference).

Definition response : Type := list (string * field).

Fixpoint resp_get (r : response) (k : string) : option field :=
  match r with
  | [] => None
  | (k', v) :: r' => if String.eqb k' k then Some v else resp_get r' k
  end.

(** One entry of [get_conversation_history]. *)
Record Turn : Type := mkTurn {
  turn_question : string;
  turn_answer : string
}.

(** What the system asks of the outside world, in the order it asks. *)
Inductive event : Type :=
  | RetrieverInvoke (question : string)
  | LLMInvoke (prompt : list message).

(** How often a trace shows the language model, and the retriever, invoked. *)
Definition is_llm_call (e : event) : bool :=
  match e with LLMInvoke _ => true | RetrieverInvoke _ => false end.

Definition llm_calls (t : list event) : nat :=
  length (List.filter is_llm_call t).

Definition retriever_calls (t : list event) : nat :=
  length (List.filter (λ e, negb (is_llm_call e)) t).

Definition nl : string := String "010"%char EmptyString.

(** [self.allowed_docs] and the retriever's [search_kwargs]. *)
Definition allowed_docs : list string :=
  [ "troubleshoot-azure-virtual-machines-windows";
    "windows-server-identity";
    "security-operations";
    "troubleshoot-microsoft-365-admintoc" ].

Definition search_k : nat := 10.

(** [format_docs] inside [_build_rag_chain]. *)
Definition format_doc (doc : Document) : string :=
  let doc_name := dict_get (metadata doc) "doc_name" (VStr "Unknown Document") in
  let page := dict_get (metadata doc) "page_number" (VStr "Unknown Page") in
  let doc_url := dict_get (metadata doc) "doc_url" (VStr "") in
  "[Document]: " +:+ py_str doc_name +:+ nl +:+
  "[Page]: " +:+ py_str page +:+ nl +:+
  "[URL]: " +:+ py_str doc_url +:+ nl +:+
  "[Content]: " +:+ page_content doc.

Fixpoint join (sep : string) (l : list string) : string :=
  match l with
  | [] => ""
  | [s] => s
  | s :: l' => s +:+ sep +:+ join sep l'
  end.

Definition format_docs (docs : list Document) : string :=
  join (nl +:+ nl +:+ "---" +:+ nl +:+ nl) (format_doc <$> docs).

(** [self.system_prompt] with [{context}] and [{question}] filled in. *)
Definition system_prompt (context question : string) : string :=
  "You are a professional IT documentation assistant. Answer questions strictly based on the provided context. " +:+ nl +:+
  "        If information is insufficient, reply " +:+ quote +:+
  "No relevant documentation found. Do not make up information." +:+ quote +:+ nl +:+
  nl +:+
  "**Rules**:" +:+ nl +:+
  "1. All answers must be based on the provided context, do not fabricate information" +:+ nl +:+
  "2. Reply in English, maintain technical accuracy but be user-friendly" +:+ nl +:+
  "3. Provide detailed operational steps and practical examples" +:+ nl +:+
  "4. Format your answer clearly with proper line breaks and structure" +:+ nl +:+
  "5. Use numbered lists for step-by-step instructions" +:+ nl +:+
  "6. Use bullet points for additional details under each step" +:+ nl +:+
  nl +:+
  "**Context**:" +:+ nl +:+
  context +:+ nl +:+
  nl +:+
  "**Question**: " +:+ question.

(** [self.prompt_template]: system message, the chat history, the question. *)
Definition prompt_template (context question : string)
    (chat_history : list message) : list message :=
  SystemMessage (system_prompt context question)
  :: chat_history ++ [HumanMessage question].

(** The [document_titles] table of [ask_question]. *)
Definition document_titles : gmap string string :=
  <["troubleshoot-azure-virtual-machines-windows" :=
      "Azure Virtual Machine Troubleshooting Guide"]>
  (<["windows-server-identity" := "Windows Server Identity & Authentication"]>
  (<["security-operations" := "Microsoft Security Operations Guide"]>
  (<["troubleshoot-microsoft-365-admintoc" :=
      "Microsoft 365 Administration Guide"]> ∅))).

(** [document_titles.get(doc_name, "Microsoft Technical Documentation")]; a
    key that is not a string is in no case in the table. *)
Definition title_of (doc_name : value) : string :=
  match doc_name with
  | VStr s => dict_get document_titles s "Microsoft Technical Documentation"
  | VInt _ => "Microsoft Technical Documentation"
  end.

(** The body of [for doc in docs[:3]], on the pair of the two accumulators
    [references] and [seen_urls]. *)
Definition add_reference (acc : list Reference * gset value) (doc : Document)
    : list Reference * gset value :=
  let '(references, seen_urls) := acc in
  let url := dict_get (metadata doc) "doc_url" (VStr "") in
  let doc_name := dict_get (metadata doc) "doc_name" (VStr "Unknown Document") in
  if truthy url && bool_decide (url ∉ seen_urls)
  then (references ++ [ {| title := title_of doc_name; url := url |} ],
        {[ url ]} ∪ seen_urls)
  else (references, seen_urls).

Definition build_references (docs : list Document) : list Reference :=
  fst (foldl add_reference ([], ∅) (take 3 docs)).

(** The citation list as the specification words it: one candidate per
    chunk among the first three, candidates without a url dropped, and of the
    candidates sharing a url only the first kept. *)
Definition cited (doc : Document) : Reference :=
  {| title := title_of (dict_get (metadata doc) "doc_name"
                                 (VStr "Unknown Document"));
     url := dict_get (metadata doc) "doc_url" (VStr "") |}.

Fixpoint first_seen (seen : list value) (l : list Reference) : list Reference :=
  match l with
  | [] => []
  | r :: l' =>
      if bool_decide (url r ∈ seen) then first_seen seen l'
      else r :: first_seen (url r :: seen) l'
  end.

Definition citations_spec (docs : list Document) : list Reference :=
  first_seen [] (filter (λ r, truthy (url r) = true) (cited <$> take 3 docs)).

(** The three dictionaries [ask_question] can return. *)
Definition miss_response (question : string) : response :=
  [ ("question", FStr question);
    ("answer", FStr "No relevant documentation found");
    ("sources", FList []);
    ("confidence", FStr "0%") ].

Definition success_response (question answer : string)
    (references : list Reference) : response :=
  [ ("question", FStr question);
    ("answer", FStr answer);
    ("references", FList references) ].

Definition error_response (question : string) (e : exn) : response :=
  [ ("question", FStr question);
    ("answer", FStr ("Error processing question: " +:+ str_exn e));
    ("sources", FList []);
    ("confidence", FStr "0%") ].

(** The two messages one answered question leaves in the memory, and the
    turn a returned dictionary stands for: the answered ones are those with
    the key [references]. *)
Definition turn_messages (t : Turn) : list message :=
  [HumanMessage (turn_question t); AIMessage (turn_answer t)].

Definition answered_turn (r : result response) : list Turn :=
  match r with
  | Ok resp =>
      match resp_get resp "question", resp_get resp "answer",
            resp_get resp "references" with
      | Some (FStr q), Some (FStr a), Some _ =>
          [ {| turn_question := q; turn_answer := a |} ]
      | _, _, _ => []
      end
  | Raise _ => []
  end.

(** [range(0, n, 2)]. *)
Definition range_by_2 (n : nat) : list nat := (λ j, 2 * j) <$> seq 0 (Nat.div2 (S n)).

(** [get_conversation_history] on the message list of the memory. *)
Definition history_of (messages : list message) : list Turn :=
  range_by_2 (length messages) ≫= λ i,
    if decide (i + 1 < length messages)
    then match messages !! i, messages !! (i + 1) with
         | Some m1, Some m2 =>
             [ {| turn_question := content m1; turn_answer := content m2 |} ]
         | _, _ => []
         end
    else [].

(** ** The retriever *)

Section VectorIndex.

(** How close a stored chunk is to a question, on whatever scale the index
    uses (the embedding and the metric are the index's own business). *)
Variable similarity : string → Document → Z.

(** The metadata filter [{"doc_name": {"$in": allowed}}]. *)
Definition passes_filter (allowed : list string) (d : Document) : bool :=
  match metadata d !! "doc_name" with
  | Some (VStr n) => bool_decide (n ∈ allowed)
  | _ => false
  end.

Definition closer (question : string) (d1 d2 : Document) : Prop :=
  (similarity question d2 ≤ similarity question d1)%Z.

#[local] Instance closer_dec question d1 d2 : Decision (closer question d1 d2).
Proof. unfold closer. apply _. Defined.

(** Modelled from the spec: the query of the vector index, a hosted service
    whose code is not in the repository.  It returns the chunks that pass
    the filter, by descending similarity, at most [k] of them. *)
Definition index_query (index : list Document) (question : string)
    (k : nat) (allowed : list string) : list Document :=
  take k (merge_sort (closer question)
                     (filter (λ d, passes_filter allowed d = true) index)).

(** [self.retriever], as [_init_vectorstore] configures it:
    [search_kwargs = {"k": 10, "filter": {"doc_name": {"$in": allowed_docs}}}]. *)
Definition retriever (index : list Document) (question : string)
    : list Document :=
  index_query index question search_k allowed_docs.

End VectorIndex.

(** ** The stateful part *)

Section System.

(** The outside world: whatever state the vector index and the language
    model are in.  Invoking either one moves the world and returns a value
    or raises. *)
Variable World : Type.
Variable connect : World → World * result unit.
Variable retriever_invoke : World → string → World * result (list Document).
Variable llm_invoke : World → list message → World * result string.

(** A [LangChainRAGSystem] instance in its world: [messages] is
    [self.memory.chat_memory.messages]; [trace] records the calls made to
    the retriever and to the language model, oldest first. *)
Record State : Type := mkState {
  world : World;
  messages : list message;
  trace : list event
}.

(** Python statements that may raise: a state and error monad. *)
Definition M (A : Type) : Type := State → State * result A.

#[local] Instance M_ret : MRet M := λ A a s, (s, Ok a).
#[local] Instance M_bind : MBind M := λ A B f m s,
  match m s with
  | (s', Ok a) => f a s'
  | (s', Raise e) => (s', Raise e)
  end.

(** [try: body except Exception as e: handler(e)]. *)
Definition try_except {A} (body : M A) (handler : exn → M A) : M A := λ s,
  match body s with
  | (s', Ok a) => (s', Ok a)
  | (s', Raise e) => handler e s'
  end.

(** [self.retriever.invoke(question)]. *)
Definition retriever_call (question : string) : M (list Document) := λ s,
  let '(w, r) := retriever_invoke (world s) question in
  ({| world := w; messages := messages s;
      trace := trace s ++ [RetrieverInvoke question] |}, r).

(** [self.llm] followed by [StrOutputParser()]. *)
Definition llm_call (prompt : list message) : M string := λ s,
  let '(w, r) := llm_invoke (world s) prompt in
  ({| world := w; messages := messages s;
      trace := trace s ++ [LLMInvoke prompt] |}, r).

Definition get_messages : M (list message) := λ s, (s, Ok (messages s)).

(** [chat_memory.add_user_message] and [chat_memory.add_ai_message]. *)
Definition add_message (m : message) : M unit := λ s,
  ({| world := world s; messages := messages s ++ [m]; trace := trace s |},
   Ok tt).

(** [self.rag_chain.invoke(question)]: the three branches of the
    [RunnableParallel], then the prompt, the model and the parser. *)
Definition rag_chain_invoke (question : string) : M string :=
  docs ← retriever_call question;
  chat_history ← get_messages;
  llm_call (prompt_template (format_docs docs) question chat_history).

(** The [try] block of [ask_question]. *)
Definition ask_question_body (question : string) : M response :=
  docs ← retriever_call question;
  match docs with
  | [] => mret (miss_response question)
  | _ :: _ =>
      answer ← rag_chain_invoke question;
      _ ← add_message (HumanMessage question);
      _ ← add_message (AIMessage answer);
      mret (success_response question answer (build_references docs))
  end.

(** [ask_question]: the [try] block and its [except Exception] clause. *)
Definition ask_question (question : string) : M response :=
  try_except (ask_question_body question)
             (λ e, mret (error_response question e)).

Definition get_conversation_history (s : State) : list Turn :=
  history_of (messages s).

(** A caller asking one question after the other on the same instance; a
    call that raised would end the run. *)
Fixpoint ask_each (questions : list string) (s : State)
    : State * list (result response) :=
  match questions with
  | [] => (s, [])
  | q :: qs =>
      match ask_question q s with
      | (s1, Ok r) => let '(s2, rs) := ask_each qs s1 in (s2, Ok r :: rs)
      | (s1, Raise e) => (s1, [Raise e])
      end
  end.

(** The five ways through [ask_question], each with the state it leaves and
    the dictionary it returns. *)
Inductive asked (q : string) (s : State) : State → response → Prop :=
  | asked_miss w1 :
      retriever_invoke (world s) q = (w1, Ok []) →
      asked q s
        {| world := w1; messages := messages s;
           trace := trace s ++ [RetrieverInvoke q] |}
        (miss_response q)
  | asked_retrieval_raised w1 e :
      retriever_invoke (world s) q = (w1, Raise e) →
      asked q s
        {| world := w1; messages := messages s;
           trace := trace s ++ [RetrieverInvoke q] |}
        (error_response q e)
  | asked_chain_retrieval_raised w1 d ds w2 e :
      retriever_invoke (world s) q = (w1, Ok (d :: ds)) →
      retriever_invoke w1 q = (w2, Raise e) →
      asked q s
        {| world := w2; messages := messages s;
           trace := trace s ++ [RetrieverInvoke q; RetrieverInvoke q] |}
        (error_response q e)
  | asked_llm_raised w1 d ds w2 docs2 w3 e :
      retriever_invoke (world s) q = (w1, Ok (d :: ds)) →
      retriever_invoke w1 q = (w2, Ok docs2) →
      llm_invoke w2 (prompt_template (format_docs docs2) q (messages s))
        = (w3, Raise e) →
      asked q s
        {| world := w3; messages := messages s;
           trace := trace s ++
             [RetrieverInvoke q; RetrieverInvoke q;
              LLMInvoke (prompt_template (format_docs docs2) q (messages s))] |}
        (error_response q e)
  | asked_answered w1 d ds w2 docs2 w3 answer :
      retriever_invoke (world s) q = (w1, Ok (d :: ds)) →
      retriever_invoke w1 q = (w2, Ok docs2) →
      llm_invoke w2 (prompt_template (format_docs docs2) q (messages s))
        = (w3, Ok answer) →
      asked q s
        {| world := w3;
           messages := messages s ++ [HumanMessage q; AIMessage answer];
           trace := trace s ++
             [RetrieverInvoke q; RetrieverInvoke q;
              LLMInvoke (prompt_template (format_docs docs2) q (messages s))] |}
        (success_response q answer (build_references (d :: ds))).

Definition clear_memory (s : State) : State :=
  {| world := world s; messages := []; trace := trace s |}.

(** [LangChainRAGSystem()]: the [_init_*] steps reach the embedding, model
    and index services and may raise; a new instance has an empty memory. *)
Definition new_system (w : World) : World * result State :=
  match connect w with
  | (w', Ok _) => (w', Ok {| world := w'; messages := []; trace := [] |})
  | (w', Raise e) => (w', Raise e)
  end.

(** [test_retrieval]: its own [try]/[except] swallows a retrieval error. *)
Definition test_retrieval (query : string) : M (list Document) :=
  try_except (retriever_call query) (λ _, mret []).

Definition test_questions : list string :=
  [ "How to troubleshoot Azure VM startup failures?";
    "How to configure Windows domain authentication?";
    "How can M365 administrators reset user passwords?" ].

(** [result[key]]: a [KeyError] when the key is missing. *)
Definition subscript (r : response) (k : string) : M field := λ s,
  match resp_get r k with
  | Some v => (s, Ok v)
  | None => (s, Raise (Exception ("'" +:+ k +:+ "'")))
  end.

(** The [for question in test_questions] loop of [main]. *)
Fixpoint ask_all (questions : list string) : M unit :=
  match questions with
  | [] => mret tt
  | q :: qs =>
      r ← ask_question q;
      _ ← subscript r "answer";
      _ ← subscript r "confidence";
      _ ← subscript r "sources";
      ask_all qs
  end.

(** [main()], the test mode: exit status only, the text it prints is not
    part of the model. *)
Definition main (w : World) : World * Z :=
  match new_system w with
  | (w', Raise _) => (w', 1%Z)
  | (_, Ok rag) =>
      let body : M unit :=
        _ ← test_retrieval "How to troubleshoot Azure VM startup failures?";
        ask_all test_questions in
      match body rag with
      | (s', Ok _) => (world s', 0%Z)
      | (s', Raise _) => (world s', 1%Z)
      end
  end.

(** [api_mode()]: the world afterwards, the dictionaries printed as JSON
    lines on standard output, and the value returned. *)
Definition api_mode (argv : list string) (w : World)
    : World * list response * Z :=
  if decide (length argv ≠ 2)
  then (w, [ [("error", FStr "Usage: python langchain_rag.py '<question>'")] ],
        1%Z)
  else
    let question := default "" (argv !! 1) in
    match new_system w with
    | (w', Raise e) => (w', [error_response question e], 1%Z)
    | (_, Ok rag) =>
        match ask_question question rag with
        | (s', Ok result) => (world s', [result], 0%Z)
        | (s', Raise e) => (world s', [error_response question e], 1%Z)
        end
    end.

(** The [if __name__ == "__main__"] block: the exit status of the process. *)
Definition dunder_main (argv : list string) (w : World) : World * Z :=
  if decide (length argv = 2)
  then let '(w', _, code) := api_mode argv w in (w', code)
  else main w.

End System.

Arguments world {World} s.
Arguments messages {World} s.
Arguments trace {World} s.
Arguments mkState {World} world messages trace.
Arguments get_conversation_history {World} s.
Arguments clear_memory {World} s.

End LangchainRag.


(** * Worlds with a fixed script, for running the model on examples *)

Module Scripted.

Import LangchainRag.

(** What the services will answer, call after call. *)
Record script : Type := mkScript {
  connection : result unit;
  retrievals : list (result (list Document));
  completions : list (result string)
}.

Definition connect (w : script) : script * result unit := (w, connection w).

Definition retriever_invoke (w : script) (question : string)
    : script * result (list Document) :=
  match retrievals w with
  | [] => (w, Ok [])
  | r :: rest =>
      ({| connection := connection w; retrievals := rest;
          completions := completions w |}, r)
  end.

Definition llm_invoke (w : script) (prompt : list message)
    : script * result string :=
  match completions w with
  | [] => (w, Ok "")
  | r :: rest =>
      ({| connection := connection w; retrievals := retrievals w;
          completions := rest |}, r)
  end.

(** A new instance in the given scripted world. *)
Definition fresh (w : script) : State script :=
  {| world := w; messages := []; trace := [] |}.

Definition ask (question : string) : M script response :=
  ask_question script retriever_invoke llm_invoke question.

(** A stored chunk with the three metadata keys the query side reads. *)
Definition chunk (text doc_name doc_url : string) (page : Z) : Document :=
  {| page_content := text;
     metadata :=
       <["doc_name" := VStr doc_name]>
       (<["doc_url" := VStr doc_url]>
       (<["page_number" := VInt page]> ∅)) |}.

Definition password_chunk : Document :=
  chunk "Reset a user password by running the reset-password command."
        "security-operations"
        "https://learn.microsoft.com/security/operations" 1.


Definition identity_chunk : Document :=
  chunk "Join the server to the domain." "windows-server-identity"
        "https://learn.microsoft.com/windows-server/identity" 4.

Definition unlisted_chunk : Document :=
  chunk "What is new in this release." "release-notes"
        "https://example.org/release-notes" 1.

Definition no_url_chunk : Document :=
  chunk "A note kept without a link." "security-operations" "" 1.

(** A world whose services are up, with the given retrieval results in turn
    and a model that answers once. *)
Definition answering (results : list (list Document)) (answer : string)
    : script :=
  {| connection := Ok tt;
     retrievals := Ok <$> results;
     completions := [Ok answer] |}.

Definition reset_question : string := "How do I reset a password?".




(** Three chunks of an allow-listed document, the first two stored with the
    same, empty, url. *)
Definition unlinked_chunk : Document :=
  chunk "A second note kept without a link." "security-operations" "" 2.

Definition shared_empty_url_docs : list Document :=
  [no_url_chunk; unlinked_chunk; password_chunk].


(** Only a chunk without a url. *)
Definition no_url_world : script :=
  answering [ [no_url_chunk]; [no_url_chunk] ] "See the note.".

(** A retriever that answers the second invocation differently. *)
Definition drifting_world : script :=
  answering [ [password_chunk]; [identity_chunk] ]
    "Join the server to the domain.".

Definition domain_question : string :=
  "How to configure Windows domain authentication?".

(** Two questions, both answered. *)
Definition two_answers_world : script :=
  {| connection := Ok tt;
     retrievals :=
       [ Ok [password_chunk]; Ok [password_chunk];
         Ok [identity_chunk]; Ok [identity_chunk] ];
     completions :=
       [ Ok "Run the reset-password command.";
         Ok "Join the server to the domain." ] |}.

(** The index cannot be reached when the system is built. *)
Definition index_down_world : script :=
  {| connection := Raise (Exception "index not found");
     retrievals := [];
     completions := [] |}.

(** A stand-in for the similarity the index computes. *)
Definition sample_similarity (question : string) (d : Document) : Z :=
  Z.of_nat (String.length (page_content d)).

(** The chain's own retrieval comes back empty. *)
Definition fading_world : script :=
  answering [ [password_chunk]; [] ] "I could not find that.".

(** Nothing is ever retrieved. *)
Definition empty_index_world : script :=
  {| connection := Ok tt; retrievals := []; completions := [] |}.

(** The state after the first of the two answered questions. *)
Definition after_first_answer : State script :=
  (ask_each script retriever_invoke llm_invoke [reset_question]
     (fresh two_answers_world)).1.

End Scripted.


(** * Properties of the ingestion script *)

Section ClassifyFacts.

Import SetupVectorstore.

Lemma lower_ascii_idemp c : lower_ascii (lower_ascii c) = lower_ascii c.
Proof.
  destruct c as [[] [] [] [] [] [] [] []]; reflexivity.
Qed.

Lemma lower_idemp s : lower (lower s) = lower s.
Proof.
  induction s as [|c s IH]; simpl; [done|].
  by rewrite lower_ascii_idemp, IH.
Qed.

Lemma classify_unfold doc_name :
  _classify_doc_type doc_name = first_match rules (lower doc_name).
Proof. reflexivity. Qed.

(** C6. [_classify_doc_type] is the ordered rule list (troubleshoot,
    identity, security, admin) applied to the lower-cased name, the first
    matching rule winning and [General] being the default: two names that
    differ only in case get the same type, a rule whose keyword occurs while
    no earlier keyword does decides the type, a name no keyword occurs in is
    [General], and a name containing both [troubleshoot] and [admin] (in
    any case) is [Troubleshooting]. *)
Theorem classify_doc_type_first_match_wins (doc_name : string) :
  _classify_doc_type doc_name = classify_by_rules doc_name
  ∧ (∀ other, lower other = lower doc_name →
       _classify_doc_type other = _classify_doc_type doc_name)
  ∧ (∀ before kw ty after,
       rules = before ++ (kw, ty) :: after →
       Forall (λ r, str_in r.1 (lower doc_name) = false) before →
       str_in kw (lower doc_name) = true →
       _classify_doc_type doc_name = ty)
  ∧ (Forall (λ r, str_in r.1 (lower doc_name) = false) rules →
       _classify_doc_type doc_name = "General")
  ∧ (str_in "troubleshoot" (lower doc_name) = true →
     str_in "admin" (lower doc_name) = true →
       _classify_doc_type doc_name = "Troubleshooting").
Proof.
  split; [reflexivity|]. split; [|split; [|split]].
  - intros other H. unfold _classify_doc_type. by rewrite H.
  - intros before kw ty after Hrules Hbefore Hkw.
    rewrite classify_unfold, Hrules. clear Hrules.
    induction Hbefore as [|[kw' ty'] before Hhd _ IH]; simpl in *.
    + by rewrite Hkw.
    + by rewrite Hhd.
  - rewrite classify_unfold.
    induction 1 as [|[kw ty] rs Hhd _ IH]; simpl in *; [done|].
    by rewrite Hhd.
  - intros Ht _. unfold _classify_doc_type. by rewrite Ht.
Qed.

Lemma classify_doc_type_witness :
  _classify_doc_type "Troubleshoot-Microsoft-365-ADMINTOC" = "Troubleshooting".
Proof.
  apply (proj2 (proj2 (proj2 (proj2 (classify_doc_type_first_match_wins
           "Troubleshoot-Microsoft-365-ADMINTOC"))))); reflexivity.
Defined.

End ClassifyFacts.

Section ProcessorFacts.

Import SetupVectorstore.

Variable load : string → list Document.
Variable split_text : Z → Z → string → list string.

(** What the loop leaves in the metadata of the chunk it numbers [i]. *)
Lemma tag_chunk_ok self doc_name i c :
  zero_based_page c = true →
  ∃ c', tag_chunk self doc_name i c = Ok c'
    ∧ metadata c' !! "doc_name" = Some (VStr doc_name)
    ∧ metadata c' !! "doc_type" = Some (VStr (_classify_doc_type doc_name))
    ∧ metadata c' !! "doc_url"
        = Some (VStr (dict_get (doc_urls self) doc_name ""))
    ∧ (∃ n, metadata c' !! "page_number" = Some (VInt n) ∧ (1 ≤ n)%Z)
    ∧ metadata c' !! "chunk_id" = Some (VInt (Z.of_nat i)).
Proof.
  unfold zero_based_page, tag_chunk, page_number_of, dict_get.
  intros Hpage.
  destruct (metadata c !! "page") as [[s|n]|] eqn:Hlk; simpl in *; try done.
  - apply Z.leb_le in Hpage. eexists. split; [done|]. simpl.
    repeat split; try by simplify_map_eq.
    exists (n + 1)%Z. split; [by simplify_map_eq | lia].
  - eexists. split; [done|]. simpl.
    repeat split; try by simplify_map_eq.
    exists 1%Z. split; [by simplify_map_eq | lia].
Qed.

Lemma tag_chunks_ok self doc_name chunks : ∀ i,
  Forall (λ c, zero_based_page c = true) chunks →
  ∃ cs, tag_chunks self doc_name i chunks = Ok cs
    ∧ length cs = length chunks
    ∧ ∀ j c', cs !! j = Some c' →
        ∃ c, chunks !! j = Some c ∧ tag_chunk self doc_name (i + j) c = Ok c'.
Proof.
  induction chunks as [|c chunks IH]; intros i Hall; simpl.
  - exists []. by repeat split.
  - apply Forall_cons in Hall as [Hc Hall].
    destruct (tag_chunk_ok self doc_name i c Hc) as (c' & Hc' & _).
    rewrite Hc'.
    destruct (IH (S i) Hall) as (cs & -> & Hlen & Hcs).
    exists (c' :: cs). split; [done|]. split; [by simpl; rewrite Hlen|].
    intros [|j] d; simpl.
    + intros [= <-]. exists c. split; [done|].
      by rewrite Nat.add_0_r.
    + intros Hd. destruct (Hcs j d Hd) as (c0 & ? & ?).
      exists c0. split; [done|]. by rewrite <- Nat.add_succ_comm.
Qed.

Lemma split_documents_pages self pages :
  Forall (λ c, zero_based_page c = true) pages →
  Forall (λ c, zero_based_page c = true) (split_documents split_text self pages).
Proof.
  intros Hall. apply Forall_forall. intros c Hc.
  unfold split_documents in Hc.
  apply list_elem_of_bind in Hc as (p & Hc & Hp).
  apply list_elem_of_fmap in Hc as (t & -> & _).
  rewrite Forall_forall in Hall. specialize (Hall p Hp).
  by unfold zero_based_page in *.
Qed.

Lemma slice_to_Forall {A} (P : A → Prop) n l :
  Forall P l → Forall P (slice_to n l).
Proof. unfold slice_to. intros H. destruct (n <? 0)%Z; by apply Forall_take. Qed.

(** C7. Whenever the loader numbers its pages from 0, [process_pdf] returns
    its chunks (it does not raise) and the chunk emitted at position [i]
    carries [doc_name], [doc_type], a [page_number] that is at least 1,
    [chunk_id = i] (so the ids are 0, 1, 2, ... in emission order, each
    once), and the [doc_url] found in the table for the name, the empty
    string when the table has no entry. *)
Theorem process_pdf_metadata_complete self pdf_path :
  Forall (λ p, zero_based_page p = true) (load pdf_path) →
  let doc_name := remove_all ".pdf" (basename pdf_path) in
  ∃ chunks,
    process_pdf load split_text self pdf_path = Ok chunks
    ∧ (∀ i c, chunks !! i = Some c →
         metadata c !! "doc_name" = Some (VStr doc_name)
         ∧ metadata c !! "doc_type" = Some (VStr (_classify_doc_type doc_name))
         ∧ (∃ n, metadata c !! "page_number" = Some (VInt n) ∧ (1 ≤ n)%Z)
         ∧ metadata c !! "chunk_id" = Some (VInt (Z.of_nat i))
         ∧ metadata c !! "doc_url"
             = Some (VStr (default "" (doc_urls self !! doc_name))))
    ∧ (λ c, metadata c !! "chunk_id") <$> chunks
        = (λ i, Some (VInt (Z.of_nat i))) <$> seq 0 (length chunks).
Proof.
  intros Hload doc_name. unfold process_pdf. fold doc_name.
  set (pages := if (_ <? _)%Z then _ else _).
  assert (Hpages : Forall (λ p, zero_based_page p = true) pages).
  { subst pages. destruct (_ <? _)%Z; [by apply slice_to_Forall | done]. }
  apply split_documents_pages with (self := self) in Hpages.
  destruct (tag_chunks_ok self doc_name _ 0 Hpages) as (cs & Hcs & Hlen & Hget).
  exists cs. split; [done|].
  assert (Hfacts : ∀ i c, cs !! i = Some c →
    metadata c !! "doc_name" = Some (VStr doc_name)
    ∧ metadata c !! "doc_type" = Some (VStr (_classify_doc_type doc_name))
    ∧ (∃ n, metadata c !! "page_number" = Some (VInt n) ∧ (1 ≤ n)%Z)
    ∧ metadata c !! "chunk_id" = Some (VInt (Z.of_nat i))
    ∧ metadata c !! "doc_url"
        = Some (VStr (default "" (doc_urls self !! doc_name)))).
  { intros i c Hc. destruct (Hget i c Hc) as (c0 & Hc0 & Htag).
    assert (Hz : zero_based_page c0 = true).
    { rewrite Forall_forall in Hpages. apply Hpages.
      by eapply list_elem_of_lookup_2. }
    destruct (tag_chunk_ok self doc_name (0 + i) c0 Hz)
      as (c' & Htag' & H1 & H2 & H3 & H4 & H5).
    rewrite Htag in Htag'. injection Htag' as <-. by repeat split. }
  split; [exact Hfacts|].
  apply list_eq. intros i. rewrite !list_lookup_fmap.
  destruct (cs !! i) as [c|] eqn:Hc; simpl.
  - destruct (Hfacts i c Hc) as (_ & _ & _ & -> & _).
    apply lookup_lt_Some in Hc. by rewrite lookup_seq_lt.
  - apply lookup_ge_None in Hc. by rewrite lookup_seq_ge.
Qed.

End ProcessorFacts.

Lemma process_pdf_metadata_witness :
  ∃ chunks,
    SetupVectorstore.process_pdf SetupVectorstore.sample_load
      SetupVectorstore.sample_split SetupVectorstore.default_processor
      "data/demo_docs/security-operations.pdf" = Ok chunks
    ∧ length chunks = 1
    ∧ (∀ i c, chunks !! i = Some c →
         metadata c !! "doc_type" = Some (VStr "Security")
         ∧ metadata c !! "chunk_id" = Some (VInt (Z.of_nat i))
         ∧ metadata c !! "doc_url"
             = Some (VStr "https://learn.microsoft.com/security/operations")).
Proof.
  destruct (process_pdf_metadata_complete SetupVectorstore.sample_load
              SetupVectorstore.sample_split SetupVectorstore.default_processor
              "data/demo_docs/security-operations.pdf")
    as (chunks & Hrun & Hfacts & Hids).
  - repeat constructor.
  - exists chunks. split; [exact Hrun|]. split.
    + apply (f_equal length) in Hids. rewrite !length_fmap, length_seq in Hids.
      clear Hfacts Hids.
      vm_compute in Hrun. by injection Hrun as <-.
    + intros i c Hc. destruct (Hfacts i c Hc) as (_ & Hty & _ & Hid & Hurl).
      repeat split; [exact Hty | exact Hid | exact Hurl].
Defined.


(** * Properties of the query script *)

Section ReferenceFacts.

Import LangchainRag.

Lemma add_reference_cited acc doc :
  add_reference acc doc =
    if truthy (url (cited doc)) && bool_decide (url (cited doc) ∉ acc.2)
    then (acc.1 ++ [cited doc], {[ url (cited doc) ]} ∪ acc.2)
    else acc.
Proof. by destruct acc. Qed.

(** The loop, started anywhere, appends what the specification's wording
    keeps of the remaining chunks. *)
Lemma foldl_add_reference docs : ∀ refs (seen : gset value) (seenl : list value),
  (∀ v, v ∈ seen ↔ v ∈ seenl) →
  (foldl add_reference (refs, seen) docs).1
  = refs ++ first_seen seenl
              (filter (λ r, truthy (url r) = true) (cited <$> docs)).
Proof.
  induction docs as [|d docs IH]; intros refs seen seenl Hseen.
  - simpl. by rewrite app_nil_r.
  - rewrite fmap_cons. cbn [foldl]. rewrite add_reference_cited. cbn [fst snd].
    destruct (truthy (url (cited d))) eqn:Hurl; simpl.
    + rewrite filter_cons_True by done. simpl.
      destruct (decide (url (cited d) ∈ seen)) as [Hin|Hnotin].
      * rewrite (bool_decide_eq_false_2 (url (cited d) ∉ seen)) by tauto.
        rewrite (bool_decide_eq_true_2 (url (cited d) ∈ seenl))
          by by apply Hseen.
        by apply IH.
      * rewrite (bool_decide_eq_true_2 (url (cited d) ∉ seen)) by done.
        rewrite (bool_decide_eq_false_2 (url (cited d) ∈ seenl))
          by by rewrite <- Hseen.
        rewrite (IH _ _ (url (cited d) :: seenl)).
        -- by rewrite <- (assoc_L (++)).
        -- intros v. rewrite elem_of_union, elem_of_singleton, elem_of_cons.
           by rewrite Hseen.
    + rewrite filter_cons_False by (by rewrite Hurl). by apply IH.
Qed.

Lemma build_references_spec docs : build_references docs = citations_spec docs.
Proof.
  unfold build_references, citations_spec.
  rewrite (foldl_add_reference _ [] ∅ []); [done|].
  intros v. by rewrite elem_of_nil, elem_of_empty.
Qed.

Lemma first_seen_sublist l : ∀ seen, first_seen seen l `sublist_of` l.
Proof.
  induction l as [|r l IH]; intros seen; simpl; [done|].
  case_bool_decide; [by apply sublist_cons | by apply sublist_skip].
Qed.




Lemma citations_spec_truthy docs :
  Forall (λ r, truthy (url r) = true) (citations_spec docs).
Proof.
  unfold citations_spec. apply Forall_forall. intros r Hr.
  eapply elem_of_sublist in Hr; [|apply first_seen_sublist].
  by apply list_elem_of_filter in Hr as [? _].
Qed.

Lemma citations_spec_no_url docs :
  Forall (λ d, truthy (url (cited d)) = false) (take 3 docs) →
  citations_spec docs = [].
Proof.
  unfold citations_spec. induction 1 as [|d ds Hd _ IH]; [done|].
  rewrite fmap_cons, filter_cons_False; [done | by rewrite Hd].
Qed.

Lemma truthy_nonempty v : truthy v = true → v ≠ VStr "".
Proof. by intros H ->. Qed.

End ReferenceFacts.

Section AskQuestionFacts.

Import LangchainRag.

Variable World : Type.
Variable retriever_invoke : World → string → World * result (list Document).
Variable llm_invoke : World → list message → World * result string.

#[local] Abbreviation ask := (ask_question World retriever_invoke llm_invoke).
#[local] Abbreviation path := (asked World retriever_invoke llm_invoke).

(** [ask_question] always returns a dictionary, and which one is decided by
    what the retriever and the model answer. *)
Lemma ask_question_asked q s :
  ∃ s' r, ask q s = (s', Ok r) ∧ path q s s' r.
Proof.
  unfold ask_question, try_except, ask_question_body, mbind, M_bind,
    retriever_call.
  destruct (retriever_invoke (world s) q) as [w1 [[|d ds]|e]] eqn:H1; simpl.
  - eexists _, _. split; [done|]. by constructor.
  - unfold rag_chain_invoke, mbind, M_bind, retriever_call, get_messages,
      llm_call, add_message, mret, M_ret; simpl.
    destruct (retriever_invoke w1 q) as [w2 [docs2|e]] eqn:H2; simpl.
    + destruct (llm_invoke w2 _) as [w3 [answer|e]] eqn:H3; simpl.
      * eexists _, _. split; [done|].
        rewrite <- !(assoc_L (++)); simpl. by eapply asked_answered.
      * eexists _, _. split; [done|].
        rewrite <- !(assoc_L (++)); simpl. by eapply asked_llm_raised.
    + eexists _, _. split; [done|].
      rewrite <- !(assoc_L (++)); simpl.
      by eapply asked_chain_retrieval_raised.
  - eexists _, _. split; [done|]. by constructor.
Qed.

Lemma ask_question_inv q s s' r :
  ask q s = (s', r) → ∃ resp, r = Ok resp ∧ path q s s' resp.
Proof.
  intros H. destruct (ask_question_asked q s) as (s1 & r1 & Heq & Hp).
  rewrite Heq in H. injection H as <- <-. eauto.
Qed.

(** Two facts about the same call agree on what it returned. *)
Ltac same_call :=
  repeat match goal with
         | H1 : ?call = _, H2 : ?call = _ |- _ =>
             rewrite H1 in H2; simplify_eq
         end.

Lemma llm_calls_app t1 t2 : llm_calls (t1 ++ t2) = llm_calls t1 + llm_calls t2.
Proof. unfold llm_calls. by rewrite List.filter_app, length_app. Qed.

Lemma retriever_calls_app t1 t2 :
  retriever_calls (t1 ++ t2) = retriever_calls t1 + retriever_calls t2.
Proof. unfold retriever_calls. by rewrite List.filter_app, length_app. Qed.

(** C1, as the code has it.  When the retriever returns no document,
    [ask_question] returns the dictionary with the answer
    [No relevant documentation found] and an empty citation list, the
    language model is not invoked and the memory is left as it was.  The
    empty list sits under the key [sources], next to [confidence = 0%]; the
    dictionary has no key [references]. *)
Theorem ask_question_retrieval_miss q s w1 :
  retriever_invoke (world s) q = (w1, Ok []) →
  ∃ s' resp,
    ask q s = (s', Ok resp)
    ∧ resp_get resp "question" = Some (FStr q)
    ∧ resp_get resp "answer" = Some (FStr "No relevant documentation found")
    ∧ resp_get resp "sources" = Some (FList [])
    ∧ resp_get resp "confidence" = Some (FStr "0%")
    ∧ resp_get resp "references" = None
    ∧ llm_calls (trace s') = llm_calls (trace s)
    ∧ messages s' = messages s.
Proof.
  intros Hmiss.
  destruct (ask_question_asked q s) as (s' & resp & Hask & Hpath).
  exists s', resp. split; [done|].
  inversion Hpath; subst; same_call; simpl.
  repeat split; try done.
  rewrite llm_calls_app. unfold llm_calls at 2. simpl. lia.
Qed.

(** C2. When the retrieval raises, or the retrieval finds documents and the
    synthesis (the RAG chain) raises, [ask_question] raises nothing: it
    returns a dictionary with the question, the answer
    [Error processing question: ] followed by the text of the exception, and
    an empty citation list, and the memory is left as it was. *)
Theorem ask_question_failure_in_band q s e :
  (retriever_call World retriever_invoke q s).2 = Raise e
  ∨ (∃ d ds,
       (retriever_call World retriever_invoke q s).2 = Ok (d :: ds)
       ∧ (rag_chain_invoke World retriever_invoke llm_invoke q
            (retriever_call World retriever_invoke q s).1).2 = Raise e) →
  ∃ s' resp,
    ask q s = (s', Ok resp)
    ∧ resp_get resp "question" = Some (FStr q)
    ∧ resp_get resp "answer"
        = Some (FStr ("Error processing question: " +:+ str_exn e))
    ∧ resp_get resp "sources" = Some (FList [])
    ∧ messages s' = messages s.
Proof.
  intros Hfail.
  destruct (ask_question_asked q s) as (s' & resp & Hask & Hpath).
  exists s', resp. split; [done|].
  unfold rag_chain_invoke, mbind, M_bind, retriever_call, get_messages,
    llm_call in Hfail.
  destruct Hfail as [Hfail | (d0 & ds0 & Hdocs & Hfail)];
    inversion Hpath; subst; simpl;
    repeat match goal with
           | H : retriever_invoke _ _ = _ |- _ =>
               rewrite H in *; simpl in *; clear H
           | H : llm_invoke _ _ = _ |- _ =>
               rewrite H in *; simpl in *; clear H
           end;
    simplify_eq; done.
Qed.

(** What an answered question went through. *)
Lemma answered_inv q s s' resp refs :
  ask q s = (s', Ok resp) →
  resp_get resp "references" = Some (FList refs) →
  ∃ w1 d ds w2 docs2 w3 answer,
    retriever_invoke (world s) q = (w1, Ok (d :: ds))
    ∧ retriever_invoke w1 q = (w2, Ok docs2)
    ∧ llm_invoke w2 (prompt_template (format_docs docs2) q (messages s))
        = (w3, Ok answer)
    ∧ s' = {| world := w3;
              messages := messages s ++ [HumanMessage q; AIMessage answer];
              trace := trace s ++
                [RetrieverInvoke q; RetrieverInvoke q;
                 LLMInvoke (prompt_template (format_docs docs2) q (messages s))] |}
    ∧ resp = success_response q answer refs
    ∧ refs = build_references (d :: ds).
Proof.
  intros Hask Hrefs.
  apply ask_question_inv in Hask as (resp' & [= <-] & Hpath).
  inversion Hpath; subst; simpl in Hrefs; try discriminate.
  injection Hrefs as <-. by eexists _, _, _, _, _, _, _.
Qed.



(** C9. Every entry of the citation list of an answered question has a url
    that is not empty: a chunk whose [doc_url] is the empty string or is
    missing gives no entry, and when none of the retrieved chunks has a url
    the list is empty although the retrieval was not. *)
Theorem citations_skip_chunks_without_url q s s' resp refs :
  ask q s = (s', Ok resp) →
  resp_get resp "references" = Some (FList refs) →
  Forall (λ r, truthy (url r) = true ∧ url r ≠ VStr "") refs
  ∧ ∃ w1 docs,
      retriever_invoke (world s) q = (w1, Ok docs)
      ∧ docs ≠ []
      ∧ (∀ d, d ∈ take 3 docs →
           dict_get (metadata d) "doc_url" (VStr "") = VStr "" →
           cited d ∉ refs)
      ∧ (Forall (λ d, dict_get (metadata d) "doc_url" (VStr "") = VStr "") docs →
         refs = []).
Proof.
  intros Hask Hrefs.
  destruct (answered_inv _ _ _ _ _ Hask Hrefs)
    as (w1 & d & ds & _ & _ & _ & _ & H1 & _ & _ & _ & _ & ->).
  rewrite build_references_spec.
  assert (Htruthy := citations_spec_truthy (d :: ds)).
  split.
  - eapply Forall_impl; [exact Htruthy|]. simpl.
    intros r Hr. split; [done | by apply truthy_nonempty].
  - exists w1, (d :: ds). split; [done|]. split; [done|]. split.
    + intros d0 _ Hempty Hin.
      rewrite Forall_forall in Htruthy. apply Htruthy in Hin.
      unfold cited in Hin; simpl in Hin. by rewrite Hempty in Hin.
    + intros Hnone. apply citations_spec_no_url.
      apply Forall_take. eapply Forall_impl; [exact Hnone|]. simpl.
      intros d0 Hd0. unfold cited; simpl. by rewrite Hd0.
Qed.

(** C10. An answered question invokes the retriever twice with the same
    question and the model once: the citations are computed from what the
    first invocation returned, the context in the model's prompt from what
    the second returned, so the two come from the same documents when the
    two invocations return the same list. *)
Theorem ask_question_retrieves_twice q s s' resp refs :
  ask q s = (s', Ok resp) →
  resp_get resp "references" = Some (FList refs) →
  ∃ w1 docs1 w2 docs2 w3 answer,
    retriever_invoke (world s) q = (w1, Ok docs1)
    ∧ retriever_invoke w1 q = (w2, Ok docs2)
    ∧ llm_invoke w2 (prompt_template (format_docs docs2) q (messages s))
        = (w3, Ok answer)
    ∧ trace s' = trace s ++
        [RetrieverInvoke q; RetrieverInvoke q;
         LLMInvoke (prompt_template (format_docs docs2) q (messages s))]
    ∧ retriever_calls (trace s') = retriever_calls (trace s) + 2
    ∧ llm_calls (trace s') = llm_calls (trace s) + 1
    ∧ refs = build_references docs1
    ∧ resp_get resp "answer" = Some (FStr answer)
    ∧ (docs2 = docs1 →
         trace s' = trace s ++
           [RetrieverInvoke q; RetrieverInvoke q;
            LLMInvoke (prompt_template (format_docs docs1) q (messages s))]).
Proof.
  intros Hask Hrefs.
  destruct (answered_inv _ _ _ _ _ Hask Hrefs)
    as (w1 & d & ds & w2 & docs2 & w3 & answer & H1 & H2 & H3 & -> & -> & ->).
  exists w1, (d :: ds), w2, docs2, w3, answer. simpl.
  rewrite retriever_calls_app, llm_calls_app.
  repeat split; try done. by intros ->.
Qed.

Lemma range_by_2_SS n :
  range_by_2 (S (S n)) = 0 :: ((λ i, 2 + i) <$> range_by_2 n).
Proof.
  unfold range_by_2.
  change (Nat.div2 (S (S (S n)))) with (S (Nat.div2 (S n))).
  cbn [seq]. rewrite fmap_cons. f_equal.
  rewrite <- fmap_S_seq, <- !list_fmap_compose.
  apply list_fmap_ext. intros _ j _. simpl. lia.
Qed.

Lemma history_of_cons2 m1 m2 l :
  history_of (m1 :: m2 :: l)
  = {| turn_question := content m1; turn_answer := content m2 |}
    :: history_of l.
Proof.
  unfold history_of. cbn [length].
  rewrite range_by_2_SS, bind_cons, list_fmap_bind.
  rewrite decide_True by lia. cbn [lookup list_lookup Nat.add app].
  f_equal. apply list_bind_ext; [|done].
  intros i. cbn [compose Nat.add lookup list_lookup].
  destruct (decide (i + 1 < length l)).
  - by rewrite decide_True by lia.
  - by rewrite decide_False by lia.
Qed.

Lemma history_of_turns (ts : list Turn) :
  history_of (ts ≫= turn_messages) = ts.
Proof.
  induction ts as [|[q a] ts IH]; [done|].
  rewrite bind_cons. unfold turn_messages at 1. cbn [app].
  by rewrite history_of_cons2, IH.
Qed.

(** Whatever the calls of a run return, the memory grows by the messages of
    the answered ones, in the order asked. *)
Lemma ask_each_messages qs : ∀ s s' rs,
  ask_each World retriever_invoke llm_invoke qs s = (s', rs) →
  messages s' = messages s ++ ((rs ≫= answered_turn) ≫= turn_messages).
Proof.
  induction qs as [|q qs IH]; intros s s' rs Hrun.
  - simpl in Hrun. injection Hrun as <- <-. by rewrite app_nil_r.
  - cbn [ask_each] in Hrun.
    destruct (ask q s) as [s1 r] eqn:Hask.
    apply ask_question_inv in Hask as (resp & -> & Hpath).
    destruct (ask_each _ _ _ qs s1) as [s2 rs'] eqn:Hrest.
    injection Hrun as <- <-.
    rewrite (IH _ _ _ Hrest), !bind_cons.
    inversion Hpath; subst; simpl; try done.
    by rewrite <- (assoc_L (++)).
Qed.

Lemma history_after_any_run qs s s' rs :
  messages s = [] →
  ask_each World retriever_invoke llm_invoke qs s = (s', rs) →
  get_conversation_history s' = rs ≫= answered_turn.
Proof.
  intros Hempty Hrun. unfold get_conversation_history.
  rewrite (ask_each_messages _ _ _ _ Hrun), Hempty. apply history_of_turns.
Qed.

Lemma answered_turns_of (qas : list (string * string)) rs :
  Forall2 (λ qa r, ∃ refs, r = Ok (success_response qa.1 qa.2 refs)) qas rs →
  rs ≫= answered_turn
  = (λ qa, {| turn_question := qa.1; turn_answer := qa.2 |}) <$> qas.
Proof.
  induction 1 as [|[q a] r qas rs (refs & ->) _ IH]; [done|].
  rewrite bind_cons, fmap_cons, IH. done.
Qed.

(** C5. On an instance whose memory is empty (a new one), after the
    questions of [qas] have been asked in turn and each has been answered
    with the answer [qas] pairs it with, [get_conversation_history] returns
    exactly these question/answer pairs, in the order asked: as many turns
    as there were cycles. *)
Theorem history_after_successful_cycles (qas : list (string * string)) s s' rs :
  messages s = [] →
  ask_each World retriever_invoke llm_invoke (qas.*1) s = (s', rs) →
  Forall2 (λ qa r, ∃ refs, r = Ok (success_response qa.1 qa.2 refs)) qas rs →
  get_conversation_history s'
  = (λ qa, {| turn_question := qa.1; turn_answer := qa.2 |}) <$> qas
  ∧ length (get_conversation_history s') = length qas.
Proof.
  intros Hempty Hrun Hall.
  rewrite (history_after_any_run _ _ _ _ Hempty Hrun).
  rewrite (answered_turns_of _ _ Hall).
  split; [done|]. by rewrite length_fmap.
Qed.

End AskQuestionFacts.

(** The retrieval-miss dictionary carries its empty list under [sources];
    asked for [references], it has nothing. *)
Lemma retrieval_miss_without_references :
  ¬ ∃ resp,
      (Scripted.ask "How do I reset a password?"
         (Scripted.fresh
            {| Scripted.connection := Ok tt;
               Scripted.retrievals := [Ok []];
               Scripted.completions := [] |})).2 = Ok resp
      ∧ LangchainRag.resp_get resp "answer"
          = Some (LangchainRag.FStr "No relevant documentation found")
      ∧ LangchainRag.resp_get resp "references"
          = Some (LangchainRag.FList []).
Proof.
  intros (resp & Hrun & _ & Hrefs).
  vm_compute in Hrun. injection Hrun as <-. discriminate Hrefs.
Qed.

Lemma ask_question_retrieval_miss_witness :
  ∃ s' resp,
    Scripted.ask "How do I reset a password?"
      (Scripted.fresh
         {| Scripted.connection := Ok tt;
            Scripted.retrievals := [Ok []];
            Scripted.completions := [] |}) = (s', Ok resp)
    ∧ LangchainRag.resp_get resp "sources" = Some (LangchainRag.FList [])
    ∧ LangchainRag.messages s' = [].
Proof.
  destruct (ask_question_retrieval_miss Scripted.script
              Scripted.retriever_invoke Scripted.llm_invoke
              "How do I reset a password?"
              (Scripted.fresh
                 {| Scripted.connection := Ok tt;
                    Scripted.retrievals := [Ok []];
                    Scripted.completions := [] |})
              {| Scripted.connection := Ok tt;
                 Scripted.retrievals := [];
                 Scripted.completions := [] |})
    as (s' & resp & Hask & _ & _ & Hsources & _ & _ & _ & Hmem).
  - reflexivity.
  - exists s', resp. repeat split; [exact Hask | exact Hsources | exact Hmem].
Defined.

Lemma ask_question_failure_witness :
  ∃ s' resp,
    Scripted.ask "How do I reset a password?"
      (Scripted.fresh
         {| Scripted.connection := Ok tt;
            Scripted.retrievals :=
              [ Ok [Scripted.chunk "Reset a user password." "security-operations"
                      "https://learn.microsoft.com/security/operations" 1];
                Ok [Scripted.chunk "Reset a user password." "security-operations"
                      "https://learn.microsoft.com/security/operations" 1] ];
            Scripted.completions := [Raise (Exception "quota exceeded")] |})
      = (s', Ok resp)
    ∧ LangchainRag.resp_get resp "answer"
        = Some (LangchainRag.FStr "Error processing question: quota exceeded")
    ∧ LangchainRag.messages s' = [].
Proof.
  destruct (ask_question_failure_in_band Scripted.script
              Scripted.retriever_invoke Scripted.llm_invoke
              "How do I reset a password?"
              (Scripted.fresh
                 {| Scripted.connection := Ok tt;
                    Scripted.retrievals :=
                      [ Ok [Scripted.chunk "Reset a user password."
                              "security-operations"
                              "https://learn.microsoft.com/security/operations" 1];
                        Ok [Scripted.chunk "Reset a user password."
                              "security-operations"
                              "https://learn.microsoft.com/security/operations" 1] ];
                    Scripted.completions := [Raise (Exception "quota exceeded")] |})
              (Exception "quota exceeded"))
    as (s' & resp & Hask & _ & Hanswer & _ & Hmem).
  - right. eexists _, _. split; reflexivity.
  - exists s', resp. repeat split; [exact Hask | exact Hanswer | exact Hmem].
Defined.



(** The chunks of that retrieval are ones the retriever can return: each
    passes its filter, and the first two carry the same [doc_url]. *)
Example shared_empty_url_chunks_pass_filter :
  Forall (λ d, LangchainRag.passes_filter LangchainRag.allowed_docs d = true)
         Scripted.shared_empty_url_docs
  ∧ metadata Scripted.no_url_chunk !! "doc_url"
    = metadata Scripted.unlinked_chunk !! "doc_url"
  ∧ Scripted.no_url_chunk ≠ Scripted.unlinked_chunk.
Proof.
  split; [repeat constructor|]. split; [reflexivity|].
  intros H. apply (f_equal page_content) in H. discriminate H.
Qed.

Lemma citations_skip_chunks_without_url_witness :
  ∃ w1 docs,
    Scripted.retriever_invoke Scripted.no_url_world Scripted.reset_question
      = (w1, Ok docs)
    ∧ docs ≠ []
    ∧ LangchainRag.resp_get
        (LangchainRag.success_response Scripted.reset_question
           "See the note." [])
        "references" = Some (LangchainRag.FList []).
Proof.
  destruct (citations_skip_chunks_without_url Scripted.script
              Scripted.retriever_invoke Scripted.llm_invoke
              Scripted.reset_question
              (Scripted.fresh Scripted.no_url_world)
              (Scripted.ask Scripted.reset_question
                 (Scripted.fresh Scripted.no_url_world)).1
              (LangchainRag.success_response Scripted.reset_question
                 "See the note." [])
              [])
    as (_ & w1 & docs & Hdocs & Hne & _).
  - vm_compute. reflexivity.
  - reflexivity.
  - exists w1, docs. repeat split; [exact Hdocs | exact Hne].
Defined.

Lemma ask_question_retrieves_twice_witness :
  LangchainRag.retriever_calls
    (LangchainRag.trace
       (Scripted.ask Scripted.reset_question
          (Scripted.fresh Scripted.drifting_world)).1) = 2
  ∧ LangchainRag.llm_calls
      (LangchainRag.trace
         (Scripted.ask Scripted.reset_question
            (Scripted.fresh Scripted.drifting_world)).1) = 1.
Proof.
  destruct (ask_question_retrieves_twice Scripted.script
              Scripted.retriever_invoke Scripted.llm_invoke
              Scripted.reset_question
              (Scripted.fresh Scripted.drifting_world)
              (Scripted.ask Scripted.reset_question
                 (Scripted.fresh Scripted.drifting_world)).1
              (LangchainRag.success_response Scripted.reset_question
                 "Join the server to the domain."
                 [ {| LangchainRag.title := "Microsoft Security Operations Guide";
                      LangchainRag.url :=
                        VStr "https://learn.microsoft.com/security/operations" |} ])
              [ {| LangchainRag.title := "Microsoft Security Operations Guide";
                   LangchainRag.url :=
                     VStr "https://learn.microsoft.com/security/operations" |} ])
    as (_ & _ & _ & _ & _ & _ & _ & _ & _ & _ & Hretr & Hllm & _).
  - vm_compute. reflexivity.
  - reflexivity.
  - split; [exact Hretr | exact Hllm].
Defined.

(** With a retriever that is not deterministic the two can differ: here the
    citation is the security guide, and the context the model was given is
    the identity chunk. *)
Example citations_and_context_can_differ :
  let run := Scripted.ask Scripted.reset_question
               (Scripted.fresh Scripted.drifting_world) in
  LangchainRag.resp_get (match run.2 with Ok r => r | Raise _ => [] end)
      "references"
    = Some (LangchainRag.FList
              [ {| LangchainRag.title := "Microsoft Security Operations Guide";
                   LangchainRag.url :=
                     VStr "https://learn.microsoft.com/security/operations" |} ])
  ∧ LangchainRag.trace run.1
    = [ LangchainRag.RetrieverInvoke Scripted.reset_question;
        LangchainRag.RetrieverInvoke Scripted.reset_question;
        LangchainRag.LLMInvoke
          (LangchainRag.prompt_template
             (LangchainRag.format_docs [Scripted.identity_chunk])
             Scripted.reset_question []) ].
Proof. split; vm_compute; reflexivity. Qed.

Section VectorIndexFacts.

Import LangchainRag.

Variable similarity : string → Document → Z.

Lemma index_query_elem index q k allowed d :
  d ∈ index_query similarity index q k allowed →
  d ∈ index ∧ passes_filter allowed d = true.
Proof.
  unfold index_query. intros Hd.
  eapply elem_of_sublist in Hd; [|apply sublist_take].
  rewrite merge_sort_Permutation in Hd.
  apply list_elem_of_filter in Hd. tauto.
Qed.

(** C4. Whatever the index holds and however close a chunk is to the
    question, the configured retriever returns only chunks whose [doc_name]
    is one of [allowed_docs], a chunk that fails the filter is not among
    them, and it returns at most [k = 10] chunks. *)
Theorem retriever_respects_allow_list index q :
  Forall (λ d, ∃ n, metadata d !! "doc_name" = Some (VStr n) ∧ n ∈ allowed_docs)
         (retriever similarity index q)
  ∧ (∀ d, passes_filter allowed_docs d = false →
       d ∉ retriever similarity index q)
  ∧ (length (retriever similarity index q) ≤ search_k)%nat.
Proof.
  unfold retriever. split; [|split].
  - apply Forall_forall. intros d [_ Hd]%index_query_elem.
    unfold passes_filter in Hd.
    destruct (metadata d !! "doc_name") as [[n|]|]; try done.
    exists n. split; [done|]. by apply bool_decide_eq_true in Hd.
  - intros d Hfail [_ Hd]%index_query_elem. congruence.
  - unfold index_query. rewrite length_take. lia.
Qed.

End VectorIndexFacts.

Section EntryPointFacts.

Import LangchainRag.

Variable World : Type.
Variable connect : World → World * result unit.
Variable retriever_invoke : World → string → World * result (list Document).
Variable llm_invoke : World → list message → World * result string.

Lemma new_system_empty w w' s :
  new_system World connect w = (w', Ok s) →
  messages s = [] ∧ trace s = [] ∧ world s = w'.
Proof.
  unfold new_system. destruct (connect w) as [w1 [[]|e]]; [|done].
  by intros [= <- <-].
Qed.

(** C8, as the code has it.  Called with one argument, the script prints one
    JSON line and its exit status is decided by the construction of the
    system alone: once the system is built the line is what [ask_question]
    returned (a failure of the retrieval or of the synthesis is inside its
    [answer]) and the status is 0; when building the system raises, the line
    has the error in its [answer] and the status is 1. *)
Theorem api_mode_exit_status prog q w :
  ∃ w' line code,
    api_mode World connect retriever_invoke llm_invoke [prog; q] w
      = (w', [line], code)
    ∧ dunder_main World connect retriever_invoke llm_invoke [prog; q] w
      = (w', code)
    ∧ match connect w with
      | (w1, Ok _) =>
          code = 0%Z
          ∧ ∃ s', ask_question World retriever_invoke llm_invoke q
                    {| world := w1; messages := []; trace := [] |}
                  = (s', Ok line)
                  ∧ world s' = w'
      | (w1, Raise e) =>
          code = 1%Z
          ∧ w' = w1
          ∧ line = error_response q e
          ∧ resp_get line "answer"
              = Some (FStr ("Error processing question: " +:+ str_exn e))
      end.
Proof.
  unfold dunder_main, api_mode, new_system.
  rewrite decide_False by (simpl; lia). rewrite decide_True by done.
  cbn [lookup list_lookup default from_option]. unfold id.
  destruct (connect w) as [w1 [[]|e]].
  - destruct (ask_question_asked World retriever_invoke llm_invoke q
                {| world := w1; messages := []; trace := [] |})
      as (s' & line & Hask & _).
    rewrite Hask. eexists _, _, _. repeat split; eauto.
  - eexists _, _, _. repeat split; eauto.
Qed.

End EntryPointFacts.

Lemma history_after_successful_cycles_witness :
  LangchainRag.get_conversation_history
    (LangchainRag.ask_each Scripted.script Scripted.retriever_invoke
       Scripted.llm_invoke
       [Scripted.reset_question; Scripted.domain_question]
       (Scripted.fresh Scripted.two_answers_world)).1
  = [ {| LangchainRag.turn_question := Scripted.reset_question;
         LangchainRag.turn_answer := "Run the reset-password command." |};
      {| LangchainRag.turn_question := Scripted.domain_question;
         LangchainRag.turn_answer := "Join the server to the domain." |} ].
Proof.
  apply (history_after_successful_cycles Scripted.script
           Scripted.retriever_invoke Scripted.llm_invoke
           [ (Scripted.reset_question, "Run the reset-password command.");
             (Scripted.domain_question, "Join the server to the domain.") ]
           (Scripted.fresh Scripted.two_answers_world)
           _
           (LangchainRag.ask_each Scripted.script Scripted.retriever_invoke
              Scripted.llm_invoke
              [Scripted.reset_question; Scripted.domain_question]
              (Scripted.fresh Scripted.two_answers_world)).2).
  - reflexivity.
  - vm_compute. reflexivity.
  - vm_compute. repeat constructor; eexists; reflexivity.
Defined.

Lemma retriever_respects_allow_list_witness :
  Scripted.unlisted_chunk
  ∉ LangchainRag.retriever Scripted.sample_similarity
      [Scripted.unlisted_chunk; Scripted.password_chunk;
       Scripted.identity_chunk]
      Scripted.reset_question.
Proof.
  apply (retriever_respects_allow_list Scripted.sample_similarity
           [Scripted.unlisted_chunk; Scripted.password_chunk;
            Scripted.identity_chunk]
           Scripted.reset_question).
  vm_compute. reflexivity.
Defined.

(** When the index cannot be reached the one-argument entry point prints the
    error inside [answer] and exits with status 1, not 0. *)
Lemma init_failure_exits_nonzero :
  ¬ (LangchainRag.dunder_main Scripted.script Scripted.connect
       Scripted.retriever_invoke Scripted.llm_invoke
       ["langchain_rag.py"; Scripted.reset_question]
       Scripted.index_down_world).2 = 0%Z.
Proof. vm_compute. discriminate. Qed.

Example init_failure_output :
  LangchainRag.api_mode Scripted.script Scripted.connect
    Scripted.retriever_invoke Scripted.llm_invoke
    ["langchain_rag.py"; Scripted.reset_question] Scripted.index_down_world
  = (Scripted.index_down_world,
     [ [ ("question", LangchainRag.FStr Scripted.reset_question);
         ("answer",
          LangchainRag.FStr "Error processing question: index not found");
         ("sources", LangchainRag.FList []);
         ("confidence", LangchainRag.FStr "0%") ] ],
     1%Z).
Proof. vm_compute. reflexivity. Qed.


(** * Further properties of the ingestion script *)

Section NameFacts.

Import SetupVectorstore.

Lemma append_assoc (a b c : string) : (a +:+ b) +:+ c = a +:+ (b +:+ c).
Proof.
  induction a as [|x a IH]; [done|].
  change (String x ((a +:+ b) +:+ c) = String x (a +:+ b +:+ c)).
  by rewrite IH.
Qed.

Lemma append_cons c (a b : string) : String c a +:+ b = String c (a +:+ b).
Proof. reflexivity. Qed.

Lemma append_nil (b : string) : "" +:+ b = b.
Proof. reflexivity. Qed.

Lemma str_in_cons_false needle c s :
  str_in needle (String c s) = false →
  String.prefix needle (String c s) = false ∧ str_in needle s = false.
Proof. cbn [str_in]. by intros [? ?]%orb_false_iff. Qed.

Lemma basename_from_no_slash s : ∀ acc,
  str_in "/" s = false → basename_from acc s = acc.
Proof.
  induction s as [|c s IH]; intros acc Hs; [done|].
  apply str_in_cons_false in Hs as [Hc Hs]. simpl in Hc |- *.
  destruct (ascii_dec "/" c) as [<-|Hne]; [by destruct s|].
  rewrite (proj2 (Ascii.eqb_neq c "/")) by congruence. by apply IH.
Qed.

Lemma basename_from_app dir name : ∀ acc,
  str_in "/" name = false →
  basename_from acc (dir +:+ "/" +:+ name) = name.
Proof.
  induction dir as [|c dir IH]; intros acc Hname.
  - rewrite append_nil, append_cons. cbn [basename_from]. simpl.
    by apply basename_from_no_slash.
  - rewrite append_cons. cbn [basename_from].
    destruct (Ascii.eqb c "/"); by apply IH.
Qed.

Lemma ends_with_slash a :
  ends_with "/" a = true → ∃ a0, a = a0 +:+ "/".
Proof.
  induction a as [|c a IH]; [done|].
  cbn [ends_with]. intros [H|H]%orb_true_iff.
  - apply String.eqb_eq in H as <-. by exists "".
  - destruct (IH H) as [a0 ->]. by exists (String c a0).
Qed.

(** Removing a text that does not occur changes nothing. *)
Lemma remove_all_absent old s :
  str_in old s = false → remove_all old s = s.
Proof.
  unfold remove_all. induction s as [|c s IH]; [done|].
  intros [Hc Hs]%str_in_cons_false.
  cbn [remove_from]. rewrite Hc. simpl. by rewrite IH.
Qed.

(** An occurrence of [.pdf] cannot begin inside a stem that has none and end
    inside the extension that follows it. *)
Lemma prefix_pdf_straddle c x :
  String.prefix ".pdf" (String c x) = false →
  String.prefix ".pdf" (String c x +:+ ".pdf") = false.
Proof.
  rewrite append_cons. cbn [String.prefix].
  destruct (ascii_dec "." c) as [_|]; [|done].
  destruct x as [|c2 x]; [done|]. rewrite append_cons. cbn [String.prefix].
  destruct (ascii_dec "p" c2) as [_|]; [|done].
  destruct x as [|c3 x]; [done|]. rewrite append_cons. cbn [String.prefix].
  destruct (ascii_dec "d" c3) as [_|]; [|done].
  destruct x as [|c4 x]; [done|]. rewrite append_cons. cbn [String.prefix].
  destruct (ascii_dec "f" c4) as [_|]; [|done].
  by destruct x.
Qed.

Lemma remove_all_extension x :
  str_in ".pdf" x = false → remove_all ".pdf" (x +:+ ".pdf") = x.
Proof.
  unfold remove_all. induction x as [|c x IH]; [done|].
  intros Hx. pose proof Hx as [Hc Hrest]%str_in_cons_false.
  rewrite append_cons. cbn [remove_from]. rewrite <- append_cons.
  rewrite (prefix_pdf_straddle c x Hc). simpl. by rewrite IH.
Qed.

Lemma basename_path_join dir name :
  str_in "/" name = false → basename (path_join dir name) = name.
Proof.
  intros Hname. unfold basename, path_join, starts_with.
  assert (String.prefix "/" name = false) as ->.
  { destruct name as [|c name]; [done|].
    by apply str_in_cons_false in Hname as [? _]. }
  destruct (String.eqb dir "") eqn:Hdir; simpl.
  - apply String.eqb_eq in Hdir as ->. rewrite append_nil.
    by apply basename_from_no_slash.
  - destruct (ends_with "/" dir) eqn:Hend.
    + apply ends_with_slash in Hend as [a0 ->].
      rewrite append_assoc. by apply basename_from_app.
    + by apply basename_from_app.
Qed.

(** X1. The name of a document survives the trip through the file system:
    for a file [stem.pdf] of the corpus directory, whose stem has no slash
    and no [.pdf] in it, the path [process_all_documents] builds gives
    [process_pdf] back the stem as [doc_name]. *)
Theorem doc_name_of_joined_path dir stem :
  str_in "/" stem = false →
  str_in ".pdf" stem = false →
  doc_name_of (path_join dir (stem +:+ ".pdf")) = stem.
Proof.
  intros Hslash Hpdf. unfold doc_name_of.
  rewrite basename_path_join; [by apply remove_all_extension|].
  clear Hpdf. induction stem as [|c stem IH]; [done|].
  apply str_in_cons_false in Hslash as [Hc Hs].
  rewrite append_cons.
  cbn [str_in]. rewrite (IH Hs), orb_false_r.
  cbn [String.prefix] in Hc |- *.
  destruct (ascii_dec "/" c); [by destruct stem | done].
Qed.

(** X2. The extension is tested without regard to case but removed only in
    lower case: a file the listing filter accepts whose name has no
    lower-case [.pdf] in it (as [Guide.PDF]) is processed under its full
    file name, extension included. *)
Theorem doc_name_keeps_other_case_extension dir name :
  is_pdf name = true →
  str_in "/" name = false →
  str_in ".pdf" name = false →
  doc_name_of (path_join dir name) = name.
Proof.
  intros _ Hslash Hpdf. unfold doc_name_of.
  rewrite basename_path_join by done. by apply remove_all_absent.
Qed.

(** X3. [_classify_doc_type] returns one of the five type names and nothing
    else. *)
Theorem classify_doc_type_range doc_name :
  _classify_doc_type doc_name
  ∈ ["Troubleshooting"; "Authentication"; "Security"; "Administration";
     "General"].
Proof.
  unfold _classify_doc_type.
  repeat match goal with
         | |- context [if ?b then _ else _] => destruct b
         end; set_solver.
Qed.

End NameFacts.

Lemma doc_name_of_joined_path_witness :
  SetupVectorstore.doc_name_of
    (SetupVectorstore.path_join "data/demo_docs" "windows-server-identity.pdf")
  = "windows-server-identity".
Proof.
  apply (doc_name_of_joined_path "data/demo_docs" "windows-server-identity");
    reflexivity.
Defined.

Lemma doc_name_keeps_other_case_extension_witness :
  SetupVectorstore.doc_name_of
    (SetupVectorstore.path_join "data/demo_docs/" "Release-Notes.PDF")
  = "Release-Notes.PDF".
Proof.
  apply (doc_name_keeps_other_case_extension "data/demo_docs/"
           "Release-Notes.PDF"); reflexivity.
Defined.

Section ChunkFacts.

Import SetupVectorstore.

Variable load : string → list Document.
Variable split_text : Z → Z → string → list string.

#[local] Abbreviation process := (process_pdf load split_text).

(** What tagging does to one chunk, whatever number it gets. *)
Lemma tag_chunk_inv self doc_name i c c' :
  tag_chunk self doc_name i c = Ok c' →
  page_content c' = page_content c
  ∧ (∃ pn, page_number_of (metadata c) = Ok pn
           ∧ metadata c' !! "page_number" = Some pn)
  ∧ (∀ k, k ∉ ["doc_name"; "doc_type"; "doc_url"; "page_number"; "chunk_id"] →
       metadata c' !! k = metadata c !! k).
Proof.
  unfold tag_chunk. destruct (page_number_of (metadata c)) as [pn|e]; [|done].
  intros [= <-]. simpl. split; [done|]. split.
  - exists pn. split; [done|]. by simplify_map_eq.
  - intros k Hk. rewrite !lookup_insert_ne; [done|..];
      intros <-; apply Hk; set_solver.
Qed.

Lemma tag_chunks_inv self doc_name chunks : ∀ i cs,
  tag_chunks self doc_name i chunks = Ok cs →
  Forall2 (λ c c', ∃ j, tag_chunk self doc_name j c = Ok c') chunks cs.
Proof.
  induction chunks as [|c chunks IH]; intros i cs; simpl.
  - intros [= <-]. constructor.
  - destruct (tag_chunk self doc_name i c) as [c'|e] eqn:Hc; [|done].
    destruct (tag_chunks self doc_name (S i) chunks) as [cs'|e] eqn:Hcs; [|done].
    intros [= <-]. constructor; [by exists i | by eapply IH].
Qed.

(** The pages [process_pdf] keeps when the budget is not negative. *)
Lemma kept_pages (max : Z) (pages : list Document) :
  (0 ≤ max)%Z →
  (if (max <? Z.of_nat (length pages))%Z then slice_to max pages else pages)
  = take (Z.to_nat max) pages.
Proof.
  intros Hmax. destruct (max <? _)%Z eqn:Hlt.
  - unfold slice_to. by rewrite (proj2 (Z.ltb_ge max 0)) by lia.
  - apply Z.ltb_ge in Hlt. by rewrite take_ge by lia.
Qed.

(** X4. With a page budget that is not negative and a loader that numbers its
    pages from 0, the texts of the chunks are, in order, the pieces of the
    first [max_pages] pages and of no other page: a budget of 0 gives no
    chunk, a budget at least the number of pages keeps them all. *)
Theorem process_pdf_page_budget self pdf_path :
  (0 ≤ max_pages self)%Z →
  Forall (λ p, zero_based_page p = true) (load pdf_path) →
  ∃ chunks,
    process self pdf_path = Ok chunks
    ∧ page_content <$> chunks
      = take (Z.to_nat (max_pages self)) (load pdf_path) ≫= λ p,
          split_text (chunk_size self) (chunk_overlap self) (page_content p).
Proof.
  intros Hmax Hload.
  assert (Hkept : Forall (λ p, zero_based_page p = true)
                    (take (Z.to_nat (max_pages self)) (load pdf_path)))
    by by apply Forall_take.
  unfold process_pdf. rewrite (kept_pages _ _ Hmax).
  set (pages := take _ _) in *.
  pose proof (split_documents_pages split_text self pages Hkept) as Hsplit.
  destruct (tag_chunks_ok self (remove_all ".pdf" (basename pdf_path)) _ 0 Hsplit)
    as (cs & Hcs & _ & _).
  exists cs. split; [done|].
  apply tag_chunks_inv in Hcs.
  transitivity (page_content <$> split_documents split_text self pages).
  - symmetry. apply list_eq_Forall2, Forall2_fmap.
    eapply Forall2_impl; [exact Hcs|]. simpl.
    intros c c' [j Hj]. by apply tag_chunk_inv in Hj as [-> _].
  - unfold split_documents. clear. induction pages as [|p pages IH]; [done|].
    rewrite !bind_cons, fmap_app, IH. f_equal.
    rewrite <- list_fmap_compose. by rewrite list_fmap_id.
Qed.

(** X5. Every chunk [process_pdf] returns comes from one page of the file:
    its text is one of the pieces of that page, its [page_number] is that
    page's [page] plus one (1 when the page has no such key), and every
    metadata key of the page other than the five the processor sets is kept
    with its value. *)
Theorem process_pdf_chunk_provenance self pdf_path chunks c :
  process self pdf_path = Ok chunks →
  c ∈ chunks →
  ∃ p, p ∈ load pdf_path
    ∧ page_content c
        ∈ split_text (chunk_size self) (chunk_overlap self) (page_content p)
    ∧ (∃ n, dict_get (metadata p) "page" (VInt 0) = VInt n
            ∧ metadata c !! "page_number" = Some (VInt (n + 1)))
    ∧ (∀ k, k ∉ ["doc_name"; "doc_type"; "doc_url"; "page_number"; "chunk_id"] →
         metadata c !! k = metadata p !! k).
Proof.
  unfold process_pdf. set (pages := if (_ <? _)%Z then _ else _).
  intros Hrun Hc.
  assert (Hsub : ∀ p, p ∈ pages → p ∈ load pdf_path).
  { subst pages. intros p. destruct (_ <? _)%Z; [|done].
    unfold slice_to. destruct (_ <? 0)%Z;
      intros ?; by eapply elem_of_sublist; [|apply sublist_take]. }
  apply tag_chunks_inv in Hrun.
  apply list_elem_of_lookup in Hc as [i Hi].
  destruct (Forall2_lookup_r _ _ _ _ _ Hrun Hi) as (c0 & Hc0 & j & Hj).
  apply list_elem_of_lookup_2 in Hc0. unfold split_documents in Hc0.
  apply list_elem_of_bind in Hc0 as (p & Hc0 & Hp).
  apply list_elem_of_fmap in Hc0 as (t & -> & Ht).
  apply tag_chunk_inv in Hj as (Htext & (pn & Hpn & Hlookup) & Hkeys).
  simpl in *. exists p. split; [by apply Hsub|].
  split; [by rewrite Htext|]. split; [|done].
  unfold page_number_of in Hpn.
  destruct (dict_get (metadata p) "page" (VInt 0)) as [?|n]; [done|].
  injection Hpn as <-. by exists n.
Qed.

Lemma process_pdf_returns self pdf_path :
  Forall (λ p, zero_based_page p = true) (load pdf_path) →
  ∃ cs, process self pdf_path = Ok cs.
Proof.
  intros Hload. unfold process_pdf.
  set (pages := if (_ <? _)%Z then _ else _).
  assert (Hpages : Forall (λ p, zero_based_page p = true) pages).
  { subst pages. destruct (_ <? _)%Z; [by apply slice_to_Forall | done]. }
  apply (split_documents_pages split_text self) in Hpages.
  destruct (tag_chunks_ok self (remove_all ".pdf" (basename pdf_path)) _ 0 Hpages)
    as (cs & Hcs & _).
  by exists cs.
Qed.

End ChunkFacts.

Section CorpusFacts.

Import SetupVectorstore.

Variable load : string → list Document.
Variable split_text : Z → Z → string → list string.
Variable path_exists : string → bool.
Variable listdir : string → result (list string).

#[local] Abbreviation process := (process_pdf load split_text).
#[local] Abbreviation process_all :=
  (process_all_documents load split_text path_exists listdir).

Lemma extend_all_ok self docs_dir files : ∀ acc,
  Forall (λ f, Forall (λ p, zero_based_page p = true)
                      (load (path_join docs_dir f))) files →
  ∃ lists,
    Forall2 (λ f cs, process self (path_join docs_dir f) = Ok cs) files lists
    ∧ extend_all load split_text self docs_dir files acc
      = Ok (acc ++ concat lists).
Proof.
  induction files as [|f files IH]; intros acc Hall.
  - exists []. split; [constructor|]. simpl. by rewrite app_nil_r.
  - apply Forall_cons in Hall as [Hf Hall].
    destruct (process_pdf_returns load split_text self (path_join docs_dir f) Hf)
      as (cs & Hcs).
    destruct (IH (acc ++ cs) Hall) as (lists & Hlists & Hrun).
    exists (cs :: lists). split; [by constructor|].
    cbn [extend_all concat]. rewrite Hcs, Hrun. by rewrite <- (assoc_L (++)).
Qed.

Lemma filter_nil_Forall {A} (f : A → bool) l :
  List.filter f l = [] ↔ Forall (λ x, f x = false) l.
Proof.
  induction l as [|x l IH]; simpl; [by split; [constructor|]|].
  destruct (f x) eqn:Hx.
  - split; [done|]. intros [H _]%Forall_cons. congruence.
  - rewrite IH. split; [by constructor | by intros [_ ?]%Forall_cons].
Qed.

(** X6. [process_all_documents] raises [Directory not found: dir] when the
    directory does not exist and [No PDF files found in dir] when its
    listing has no name ending in [.pdf] (in any case); it returns chunks
    only for an existing directory that lists at least one such name. *)
Theorem process_all_documents_needs_pdfs self docs_dir :
  (path_exists docs_dir = false →
     process_all self docs_dir
     = Raise (Exception ("Directory not found: " +:+ docs_dir)))
  ∧ (∀ names, path_exists docs_dir = true → listdir docs_dir = Ok names →
       Forall (λ f, is_pdf f = false) names →
       process_all self docs_dir
       = Raise (Exception ("No PDF files found in " +:+ docs_dir)))
  ∧ (∀ chunks, process_all self docs_dir = Ok chunks →
       path_exists docs_dir = true
       ∧ ∃ names f, listdir docs_dir = Ok names ∧ f ∈ names ∧ is_pdf f = true).
Proof.
  unfold process_all_documents. split; [by intros ->|]. split.
  - intros names -> -> Hnone. simpl.
    by rewrite (proj2 (filter_nil_Forall is_pdf names) Hnone).
  - intros chunks. destruct (path_exists docs_dir); [|done]. simpl.
    destruct (listdir docs_dir) as [names|e]; [|done].
    destruct (List.filter is_pdf names) as [|f fs] eqn:Hfilter; [done|].
    intros _. split; [done|]. exists names, f. split; [done|].
    assert (Hin : In f (List.filter is_pdf names)) by (rewrite Hfilter; by left).
    apply List.filter_In in Hin as [Hin Hpdf].
    split; [by apply list_elem_of_In | done].
Qed.

(** X7. For an existing directory that lists at least one PDF, all of whose
    PDF files load with pages numbered from 0, [process_all_documents]
    returns the chunk lists [process_pdf] gives for the PDF names of the
    listing, concatenated in listing order; names that do not end in [.pdf]
    contribute nothing. *)
Theorem process_all_documents_concatenates self docs_dir names :
  path_exists docs_dir = true →
  listdir docs_dir = Ok names →
  List.filter is_pdf names ≠ [] →
  Forall (λ f, is_pdf f = true →
               Forall (λ p, zero_based_page p = true)
                      (load (path_join docs_dir f))) names →
  ∃ lists,
    Forall2 (λ f cs, process self (path_join docs_dir f) = Ok cs)
            (List.filter is_pdf names) lists
    ∧ process_all self docs_dir = Ok (concat lists).
Proof.
  intros Hex Hls Hsome Hpages.
  assert (Hpdfs : Forall (λ f, Forall (λ p, zero_based_page p = true)
                                      (load (path_join docs_dir f)))
                         (List.filter is_pdf names)).
  { apply Forall_forall. intros f Hf%list_elem_of_In.
    apply List.filter_In in Hf as [Hf Hpdf].
    rewrite Forall_forall in Hpages. apply Hpages; [|done].
    by apply list_elem_of_In. }
  destruct (extend_all_ok self docs_dir _ [] Hpdfs) as (lists & Hlists & Hrun).
  exists lists. split; [done|].
  unfold process_all_documents. rewrite Hex, Hls. simpl.
  destruct (List.filter is_pdf names); [done | exact Hrun].
Qed.

Variable World : Type.
Variable embeddings_init : World → option string → World * result unit.
Variable from_documents :
  World → list Document → option string → World * result unit.

#[local] Abbreviation setup_main :=
  (main load split_text path_exists listdir World embeddings_init
        from_documents).

Lemma unset_false env var :
  unset env var = false ↔ ∃ x, env !! var = Some x ∧ x ≠ "".
Proof.
  unfold unset. destruct (env !! var) as [x|].
  - rewrite String.eqb_neq. split; [by exists x | by intros (? & [= <-] & ?)].
  - split; [done | by intros (? & ? & _)].
Qed.

Lemma missing_vars_nil env :
  missing_vars env = []
  ↔ Forall (λ v, ∃ x, env !! v = Some x ∧ x ≠ "") required_vars.
Proof.
  unfold missing_vars. rewrite filter_nil_Forall.
  apply Forall_iff. intros v. apply unset_false.
Qed.

(** X8. The set-up script exits with status 0 exactly when the three
    required variables are set and not empty, the corpus directory
    [data/demo_docs] is processed into chunks, the embeddings client is
    built and the vector store is created from exactly those chunks under
    the configured index name. *)
Theorem setup_main_succeeds_iff env w w' :
  setup_main env w = (w', 0%Z)
  ↔ Forall (λ v, ∃ x, env !! v = Some x ∧ x ≠ "") required_vars
    ∧ ∃ chunks w1,
        process_all (init 50 500 50) "data/demo_docs" = Ok chunks
        ∧ embeddings_init w (env !! "OPENAI_API_KEY") = (w1, Ok tt)
        ∧ from_documents w1 chunks (env !! "PINECONE_INDEX_NAME")
          = (w', Ok tt).
Proof.
  rewrite <- missing_vars_nil. unfold main, setup_vectorstore.
  destruct (missing_vars env) as [|v vs].
  - destruct (process_all _ _) as [chunks|e].
    + destruct (embeddings_init w _) as [w1 [[]|e]] eqn:Hemb.
      * destruct (from_documents w1 chunks _) as [w2 [[]|e]] eqn:Hstore.
        -- split.
           ++ intros [= <-]. split; [done|]. by exists chunks, w1.
           ++ intros (_ & chunks' & w1' & [= <-] & [= <-] & Hstore').
              rewrite Hstore in Hstore'. by injection Hstore' as <-.
        -- split; [done|].
           intros (_ & chunks' & w1' & [= <-] & [= <-] & Hstore').
           by rewrite Hstore in Hstore'.
      * split; [done|]. by intros (_ & chunks' & w1' & _ & ? & _).
    + split; [done|]. by intros (_ & chunks' & w1' & ? & _).
  - split; [done | by intros [? _]].
Qed.

(** X9. When a required variable is unset or empty, or the corpus cannot be
    processed, the set-up script exits with status 1 without reaching any
    service: the embeddings client is not built and nothing is written to
    the index. *)
Theorem setup_main_stops_before_services env w :
  missing_vars env ≠ []
  ∨ (∃ e, process_all (init 50 500 50) "data/demo_docs" = Raise e) →
  setup_main env w = (w, 1%Z).
Proof.
  unfold main, setup_vectorstore.
  destruct (missing_vars env) as [|v vs]; [|done].
  intros [?|(e & ->)]; done.
Qed.

End CorpusFacts.

Lemma process_pdf_page_budget_witness :
  ∃ chunks,
    SetupVectorstore.process_pdf SetupVectorstore.sample_load
      SetupVectorstore.sample_split SetupVectorstore.default_processor
      SetupVectorstore.sample_path = Ok chunks
    ∧ page_content <$> chunks
      = ["Reset a user password by running the reset-password command."].
Proof.
  destruct (process_pdf_page_budget SetupVectorstore.sample_load
              SetupVectorstore.sample_split SetupVectorstore.default_processor
              SetupVectorstore.sample_path)
    as (chunks & Hrun & Htexts).
  - vm_compute. discriminate.
  - repeat constructor.
  - exists chunks. split; [exact Hrun | exact Htexts].
Defined.

Lemma process_pdf_chunk_provenance_witness :
  ∃ p, p ∈ SetupVectorstore.sample_load SetupVectorstore.sample_path
    ∧ metadata SetupVectorstore.sample_chunk !! "source" = metadata p !! "source".
Proof.
  destruct (process_pdf_chunk_provenance SetupVectorstore.sample_load
              SetupVectorstore.sample_split SetupVectorstore.default_processor
              SetupVectorstore.sample_path SetupVectorstore.sample_chunks
              SetupVectorstore.sample_chunk)
    as (p & Hp & _ & _ & Hkeys).
  - vm_compute. reflexivity.
  - vm_compute. constructor.
  - exists p. split; [exact Hp|]. apply Hkeys.
    intros Hin. repeat (apply elem_of_cons in Hin as [Hin|Hin]; [discriminate|]).
    by apply elem_of_nil in Hin.
Defined.

Lemma process_all_documents_needs_pdfs_witness :
  SetupVectorstore.process_all_documents SetupVectorstore.sample_load
    SetupVectorstore.sample_split SetupVectorstore.sample_exists
    SetupVectorstore.sample_listdir SetupVectorstore.default_processor
    "data/missing"
  = Raise (Exception "Directory not found: data/missing").
Proof.
  apply (process_all_documents_needs_pdfs SetupVectorstore.sample_load
           SetupVectorstore.sample_split SetupVectorstore.sample_exists
           SetupVectorstore.sample_listdir SetupVectorstore.default_processor
           "data/missing").
  reflexivity.
Defined.

Lemma process_all_documents_concatenates_witness :
  ∃ lists,
    length lists = 2
    ∧ SetupVectorstore.process_all_documents SetupVectorstore.sample_load
        SetupVectorstore.sample_split SetupVectorstore.sample_exists
        SetupVectorstore.sample_listdir SetupVectorstore.default_processor
        "data/demo_docs"
      = Ok (concat lists).
Proof.
  destruct (process_all_documents_concatenates SetupVectorstore.sample_load
              SetupVectorstore.sample_split SetupVectorstore.sample_exists
              SetupVectorstore.sample_listdir SetupVectorstore.default_processor
              "data/demo_docs"
              ["security-operations.pdf"; "README.md"; "Release-Notes.PDF"])
    as (lists & Hlists & Hrun).
  - reflexivity.
  - reflexivity.
  - vm_compute. discriminate.
  - repeat constructor.
  - exists lists. split; [|exact Hrun].
    apply Forall2_length in Hlists. rewrite <- Hlists. reflexivity.
Defined.

Lemma setup_main_succeeds_iff_witness :
  ∃ chunks w1,
    SetupVectorstore.process_all_documents SetupVectorstore.sample_load
      SetupVectorstore.sample_split SetupVectorstore.sample_exists
      SetupVectorstore.sample_listdir (SetupVectorstore.init 50 500 50)
      "data/demo_docs" = Ok chunks
    ∧ SetupVectorstore.sample_embeddings 0
        (SetupVectorstore.sample_env !! "OPENAI_API_KEY") = (w1, Ok tt)
    ∧ SetupVectorstore.sample_from_documents w1 chunks
        (SetupVectorstore.sample_env !! "PINECONE_INDEX_NAME") = (2, Ok tt).
Proof.
  apply (proj1 (setup_main_succeeds_iff SetupVectorstore.sample_load
                  SetupVectorstore.sample_split SetupVectorstore.sample_exists
                  SetupVectorstore.sample_listdir nat
                  SetupVectorstore.sample_embeddings
                  SetupVectorstore.sample_from_documents
                  SetupVectorstore.sample_env 0 2)).
  vm_compute. reflexivity.
Defined.

Lemma setup_main_stops_before_services_witness :
  SetupVectorstore.main SetupVectorstore.sample_load
    SetupVectorstore.sample_split SetupVectorstore.sample_exists
    SetupVectorstore.sample_listdir nat SetupVectorstore.sample_embeddings
    SetupVectorstore.sample_from_documents
    (delete "PINECONE_API_KEY" SetupVectorstore.sample_env) 7
  = (7, 1%Z).
Proof.
  apply (setup_main_stops_before_services SetupVectorstore.sample_load
           SetupVectorstore.sample_split SetupVectorstore.sample_exists
           SetupVectorstore.sample_listdir nat
           SetupVectorstore.sample_embeddings
           SetupVectorstore.sample_from_documents).
  left. vm_compute. discriminate.
Defined.


(** * Further properties of the query script *)

(** Two hypotheses about the same call are merged into one. *)
Ltac agree_calls :=
  repeat match goal with
         | H1 : ?call = _, H2 : ?call = _ |- _ =>
             rewrite H1 in H2; simplify_eq
         end.

Section ResponseFacts.

Import LangchainRag.

Variable World : Type.
Variable retriever_invoke : World → string → World * result (list Document).
Variable llm_invoke : World → list message → World * result string.

#[local] Abbreviation ask := (ask_question World retriever_invoke llm_invoke).
#[local] Abbreviation path := (asked World retriever_invoke llm_invoke).

(** X10. [ask_question] never raises, and what it returns is one of three
    dictionaries that a caller can tell apart: the answered one (with
    [references], without [sources] and [confidence]), the retrieval-miss
    one and the error one (both with [sources] and [confidence], without
    [references]), the last two differing in their [answer]. *)
Theorem ask_question_three_shapes q s :
  ∃ s' resp,
    ask q s = (s', Ok resp)
    ∧ ((∃ a refs, resp = success_response q a refs)
       ∨ resp = miss_response q
       ∨ (∃ e, resp = error_response q e))
    ∧ (∀ a refs, resp = success_response q a refs →
         resp_get resp "references" = Some (FList refs)
         ∧ resp_get resp "sources" = None
         ∧ resp_get resp "confidence" = None)
    ∧ (resp = miss_response q ∨ (∃ e, resp = error_response q e) →
         resp_get resp "references" = None
         ∧ resp_get resp "sources" = Some (FList [])
         ∧ resp_get resp "confidence" = Some (FStr "0%"))
    ∧ (∀ e, miss_response q ≠ error_response q e).
Proof.
  destruct (ask_question_asked World retriever_invoke llm_invoke q s)
    as (s' & resp & Hask & Hpath).
  exists s', resp. split; [done|]. split.
  - inversion Hpath; subst; eauto.
  - split; [by intros a refs ->|]. split; [by intros [->|[e ->]]|].
    by intros [m].
Qed.

(** X11. One call of [ask_question] invokes the retriever once or twice and
    the model at most once, the model only after two retrievals; calls made
    earlier stay in the trace, and the memory keeps what it had. *)
Theorem ask_question_call_budget q s s' r :
  ask q s = (s', r) →
  trace s `prefix_of` trace s'
  ∧ messages s `prefix_of` messages s'
  ∧ (retriever_calls (trace s) + 1 ≤ retriever_calls (trace s')
     ≤ retriever_calls (trace s) + 2)%nat
  ∧ (llm_calls (trace s) ≤ llm_calls (trace s') ≤ llm_calls (trace s) + 1)%nat
  ∧ (llm_calls (trace s') = llm_calls (trace s) + 1 →
     retriever_calls (trace s') = retriever_calls (trace s) + 2)%nat.
Proof.
  intros Hask.
  apply ask_question_inv in Hask as (resp & -> & Hpath).
  inversion Hpath; subst; cbn [trace messages];
    (split; [by apply prefix_app_r|]);
    (split; [by (done || apply prefix_app_r)|]);
    unfold retriever_calls, llm_calls;
    rewrite !List.filter_app, !length_app; simpl; lia.
Qed.

(** X12. The check for an empty retrieval looks at the first invocation
    only: when the chain's own retrieval comes back empty the question is
    still answered, the model being given an empty context, and the
    citations are those of the first retrieval. *)
Theorem ask_question_empty_chain_retrieval q s w1 d ds w2 w3 answer :
  retriever_invoke (world s) q = (w1, Ok (d :: ds)) →
  retriever_invoke w1 q = (w2, Ok []) →
  llm_invoke w2 (prompt_template "" q (messages s)) = (w3, Ok answer) →
  ∃ s',
    ask q s
      = (s', Ok (success_response q answer (build_references (d :: ds))))
    ∧ messages s' = messages s ++ [HumanMessage q; AIMessage answer]
    ∧ last (trace s')
        = Some (LLMInvoke
                  (SystemMessage (system_prompt "" q)
                   :: messages s ++ [HumanMessage q])).
Proof.
  intros H1 H2 H3.
  assert (Hctx : format_docs [] = "") by reflexivity.
  eexists. split; [|split].
  - unfold ask_question, try_except, ask_question_body, mbind, M_bind,
      retriever_call.
    rewrite H1. cbn [world messages trace].
    unfold rag_chain_invoke, mbind, M_bind, retriever_call, get_messages,
      llm_call, add_message, mret, M_ret.
    cbn [world messages trace]. rewrite H2. cbn [world messages trace].
    rewrite Hctx, H3. cbn [world messages trace]. reflexivity.
  - cbn [messages]. by rewrite <- (assoc_L (++)).
  - cbn [trace]. by rewrite last_app.
Qed.

End ResponseFacts.

Section CitationFacts.

Import LangchainRag.

(** X13. The citation list has at most three entries, never more than there
    are retrieved chunks, and chunks after the third have no influence on
    it. *)
Theorem build_references_at_most_three docs :
  (length (build_references docs) ≤ 3)%nat
  ∧ (length (build_references docs) ≤ length docs)%nat
  ∧ build_references docs = build_references (take 3 docs).
Proof.
  assert (Hlen : (length (build_references docs)
                  ≤ length (take 3 docs))%nat).
  { rewrite build_references_spec. unfold citations_spec.
    etransitivity; [apply sublist_length, first_seen_sublist|].
    etransitivity; [apply sublist_length, sublist_filter|].
    by rewrite length_fmap. }
  rewrite length_take in Hlen. split; [lia|]. split; [lia|].
  unfold build_references. by rewrite take_take.
Qed.

(** X14. A chunk that passes the retriever's filter is never cited under the
    fallback title: its [doc_name] is one of [allowed_docs], and the title
    table has an entry for each of them. *)
Theorem filtered_chunk_has_table_title d :
  passes_filter allowed_docs d = true →
  ∃ n t,
    metadata d !! "doc_name" = Some (VStr n)
    ∧ n ∈ allowed_docs
    ∧ document_titles !! n = Some t
    ∧ title (cited d) = t
    ∧ t ≠ "Microsoft Technical Documentation".
Proof.
  unfold passes_filter.
  destruct (metadata d !! "doc_name") as [[n|]|] eqn:Hname; try done.
  intros Hin%bool_decide_eq_true. exists n.
  unfold cited, title_of, dict_get. rewrite Hname. simpl.
  unfold allowed_docs in Hin |- *.
  repeat (apply elem_of_cons in Hin as [->|Hin];
          [eexists; split; [done|]; split; [set_solver|];
           split; [reflexivity|]; split; [reflexivity | discriminate] |]).
  by apply elem_of_nil in Hin.
Qed.

(** X15. [get_conversation_history] pairs the messages of the memory two by
    two: it returns half as many turns as there are messages (rounded down),
    it gives back the turns whose messages the memory holds, and a single
    message left over at the end is ignored. *)
Theorem history_pairs_messages (msgs : list message) (ts : list Turn)
    (m : message) :
  length (history_of msgs) = Nat.div2 (length msgs)
  ∧ history_of (ts ≫= turn_messages) = ts
  ∧ history_of ((ts ≫= turn_messages) ++ [m]) = ts.
Proof.
  split; [|split].
  - assert (H : ∀ l : list message,
              length (history_of l) = Nat.div2 (length l)
              ∧ ∀ x, length (history_of (x :: l)) = Nat.div2 (S (length l))).
    { induction l as [|y l [IH1 IH2]]; [by split|]. split; [apply IH2|].
      intros x. rewrite history_of_cons2. simpl. by rewrite IH1. }
    apply H.
  - apply history_of_turns.
  - induction ts as [|[q a] ts IH]; [done|].
    rewrite bind_cons. unfold turn_messages at 1. cbn [app].
    by rewrite history_of_cons2, IH.
Qed.

(** X16. A chunk whose metadata lacks [doc_name], [page_number] and
    [doc_url] is still rendered, with [Unknown Document], [Unknown Page] and
    an empty url; the blocks of a context are joined in retrieval order. *)
Theorem format_docs_missing_metadata d docs :
  metadata d !! "doc_name" = None →
  metadata d !! "page_number" = None →
  metadata d !! "doc_url" = None →
  format_doc d
  = "[Document]: Unknown Document" +:+ nl +:+ "[Page]: Unknown Page" +:+ nl
    +:+ "[URL]: " +:+ nl +:+ "[Content]: " +:+ page_content d
  ∧ format_docs [d] = format_doc d
  ∧ (docs ≠ [] →
     format_docs (d :: docs)
     = format_doc d +:+ (nl +:+ nl +:+ "---" +:+ nl +:+ nl)
       +:+ format_docs docs).
Proof.
  intros Hname Hpage Hurl. split; [|split].
  - unfold format_doc, dict_get. by rewrite Hname, Hpage, Hurl.
  - reflexivity.
  - by destruct docs.
Qed.

End CitationFacts.

Lemma filtered_chunk_has_table_title_witness :
  ∃ n t,
    metadata Scripted.identity_chunk !! "doc_name" = Some (VStr n)
    ∧ LangchainRag.document_titles !! n = Some t
    ∧ LangchainRag.title (LangchainRag.cited Scripted.identity_chunk) = t.
Proof.
  destruct (filtered_chunk_has_table_title Scripted.identity_chunk)
    as (n & t & Hname & _ & Htable & Htitle & _).
  - vm_compute. reflexivity.
  - exists n, t. repeat split; [exact Hname | exact Htable | exact Htitle].
Defined.

Lemma format_docs_missing_metadata_witness :
  LangchainRag.format_docs [ {| page_content := "text"; metadata := ∅ |} ]
  = LangchainRag.format_doc {| page_content := "text"; metadata := ∅ |}.
Proof.
  apply (format_docs_missing_metadata
           {| page_content := "text"; metadata := ∅ |} []); reflexivity.
Defined.

Section RunFacts.

Import LangchainRag.

Variable World : Type.
Variable connect : World → World * result unit.
Variable retriever_invoke : World → string → World * result (list Document).
Variable llm_invoke : World → list message → World * result string.

#[local] Abbreviation ask := (ask_question World retriever_invoke llm_invoke).
#[local] Abbreviation ask_run := (ask_each World retriever_invoke llm_invoke).
#[local] Abbreviation test_loop := (ask_all World retriever_invoke llm_invoke).

(** X17. The model is shown the conversation so far: when a question is
    answered after a run of earlier questions on a new instance, the prompt
    sent to the model is the system message, then the question/answer
    messages of exactly the earlier questions that were answered, in order,
    then the question itself. *)
Theorem prompt_carries_answered_turns qs q s s1 rs s2 resp refs :
  messages s = [] →
  ask_run qs s = (s1, rs) →
  ask q s1 = (s2, Ok resp) →
  resp_get resp "references" = Some (FList refs) →
  ∃ context,
    last (trace s2)
    = Some (LLMInvoke
              (SystemMessage (system_prompt context q)
               :: ((rs ≫= answered_turn) ≫= turn_messages)
                  ++ [HumanMessage q])).
Proof.
  intros Hempty Hrun Hask Hrefs.
  apply ask_each_messages in Hrun. rewrite Hempty in Hrun. simpl in Hrun.
  destruct (answered_inv _ _ _ _ _ _ _ _ Hask Hrefs)
    as (w1 & d & ds & w2 & docs2 & w3 & answer & _ & _ & _ & -> & _ & _).
  exists (format_docs docs2). cbn [trace].
  by rewrite last_app, Hrun.
Qed.

(** X18. [clear_memory] empties the conversation and nothing else: the
    history read right after it is empty, the world is as it was, and the
    history after any further run holds the turns answered since, not the
    earlier ones. *)
Theorem clear_memory_forgets qs s s' rs :
  ask_run qs (clear_memory s) = (s', rs) →
  get_conversation_history (clear_memory s) = []
  ∧ world (clear_memory s) = world s
  ∧ get_conversation_history s' = rs ≫= answered_turn.
Proof.
  intros Hrun. split; [done|]. split; [done|].
  eapply history_after_any_run; [|exact Hrun]. reflexivity.
Qed.

Lemma test_retrieval_ok query s :
  ∃ s' docs,
    test_retrieval World retriever_invoke query s = (s', Ok docs)
    ∧ messages s' = messages s
    ∧ trace s' = trace s ++ [RetrieverInvoke query]
    ∧ (∀ w found, retriever_invoke (world s) query = (w, Ok found) →
         docs = found ∧ world s' = w)
    ∧ (∀ w e, retriever_invoke (world s) query = (w, Raise e) →
         docs = [] ∧ world s' = w).
Proof.
  unfold test_retrieval, try_except, retriever_call.
  destruct (retriever_invoke (world s) query) as [w [docs|e]];
    eexists _, _; simpl; (split; [done|]); (split; [done|]);
    (split; [done|]); split; intros; by simplify_eq.
Qed.

(** X19. [test_retrieval] invokes the retriever once and never raises: it
    returns the documents found, the empty list when the retrieval raised,
    and leaves the memory alone. *)
Theorem test_retrieval_swallows_errors query s :
  ∃ s' docs,
    test_retrieval World retriever_invoke query s = (s', Ok docs)
    ∧ messages s' = messages s
    ∧ trace s' = trace s ++ [RetrieverInvoke query]
    ∧ (∀ w found, retriever_invoke (world s) query = (w, Ok found) →
         docs = found ∧ world s' = w)
    ∧ (∀ w e, retriever_invoke (world s) query = (w, Raise e) →
         docs = [] ∧ world s' = w).
Proof. apply test_retrieval_ok. Qed.

Lemma ask_all_inv qs : ∀ s s' r,
  test_loop qs s = (s', r) →
  match r with
  | Ok _ => messages s' = messages s
  | Raise e =>
      e = Exception "'confidence'"
      ∧ ∃ q a, q ∈ qs
               ∧ messages s' = messages s ++ [HumanMessage q; AIMessage a]
  end.
Proof.
  induction qs as [|q qs IH]; intros s s' r.
  - simpl. by intros [= <- <-].
  - cbn [ask_all]. unfold mbind, M_bind at 1.
    destruct (ask q s) as [s1 r1] eqn:Hask.
    apply ask_question_inv in Hask as (resp & -> & Hpath).
    inversion Hpath; subst; unfold subscript, M_bind; simpl;
      try (intros Hrest; apply IH in Hrest; destruct r as [[]|err];
           [exact Hrest |
            destruct Hrest as (-> & q' & a & Hq' & ->);
            split; [done|]; exists q', a; split; [by right | done]]).
    intros [= <- <-]. split; [done|]. exists q, answer. split; [by left | done].
Qed.

(** X20. The loop of the test mode reads [confidence] and [sources] from
    every result, keys an answered result does not have: the loop runs to
    its end only if no question was answered (the memory is then as it
    was), and the first answered question stops it with
    [KeyError: 'confidence'], that question's turn being the only one
    recorded. *)
Theorem test_loop_stops_at_first_answer qs s s' r :
  ask_all World retriever_invoke llm_invoke qs s = (s', r) →
  match r with
  | Ok _ => messages s' = messages s
  | Raise e =>
      e = Exception "'confidence'"
      ∧ ∃ q a, q ∈ qs
               ∧ messages s' = messages s ++ [HumanMessage q; AIMessage a]
  end.
Proof. apply ask_all_inv. Qed.

(** X21. The test mode exits with status 0 only when the system was built
    and none of its three questions was answered: the memory is still empty
    when the loop ends. *)
Theorem main_succeeds_only_without_answers w w' :
  main World connect retriever_invoke llm_invoke w = (w', 0%Z) →
  ∃ w1 s1 docs s2,
    connect w = (w1, Ok tt)
    ∧ test_retrieval World retriever_invoke
        "How to troubleshoot Azure VM startup failures?"
        {| world := w1; messages := []; trace := [] |} = (s1, Ok docs)
    ∧ ask_all World retriever_invoke llm_invoke test_questions s1
      = (s2, Ok tt)
    ∧ messages s2 = []
    ∧ world s2 = w'.
Proof.
  unfold main, new_system.
  destruct (connect w) as [w1 [[]|e]]; [|done].
  unfold mbind, M_bind.
  destruct (test_retrieval_ok
              "How to troubleshoot Azure VM startup failures?"
              {| world := w1; messages := []; trace := [] |})
    as (s1 & docs & Htest & Hmem & _).
  rewrite Htest.
  destruct (test_loop test_questions s1) as [s2 [[]|e]] eqn:Hloop;
    [|done].
  intros [= <-]. exists w1, s1, docs, s2.
  pose proof (ask_all_inv _ _ _ _ Hloop) as Hsame. simpl in Hsame.
  split; [done|]. split; [done|]. split; [done|].
  split; [by rewrite Hsame, Hmem | done].
Qed.

End RunFacts.

Section IngestThenCite.

Variable load : string → list Document.
Variable split_text : Z → Z → string → list string.

Lemma tag_chunk_names self doc_name i c c' :
  SetupVectorstore.tag_chunk self doc_name i c = Ok c' →
  metadata c' !! "doc_name" = Some (VStr doc_name)
  ∧ metadata c' !! "doc_url"
    = Some (VStr (dict_get (SetupVectorstore.doc_urls self) doc_name "")).
Proof.
  unfold SetupVectorstore.tag_chunk.
  destruct (SetupVectorstore.page_number_of (metadata c)); [|done].
  intros [= <-]. simpl. split; by simplify_map_eq.
Qed.

(** X22. The two scripts agree on the four documents of the allow-list: every
    chunk the default processor makes of a file named after one of them (in
    any directory) passes the retriever's filter and is cited with the url
    the processor's table has for the document and the title the query
    script's table has for it. *)
Theorem allowed_document_is_citable dir n chunks c :
  n ∈ LangchainRag.allowed_docs →
  SetupVectorstore.process_pdf load split_text
    SetupVectorstore.default_processor
    (SetupVectorstore.path_join dir (n +:+ ".pdf")) = Ok chunks →
  c ∈ chunks →
  LangchainRag.passes_filter LangchainRag.allowed_docs c = true
  ∧ ∃ u t,
      SetupVectorstore.doc_urls SetupVectorstore.default_processor !! n = Some u
      ∧ LangchainRag.document_titles !! n = Some t
      ∧ LangchainRag.cited c
        = {| LangchainRag.title := t; LangchainRag.url := VStr u |}
      ∧ truthy (VStr u) = true.
Proof.
  intros Hn Hrun Hc.
  assert (Hname : remove_all ".pdf"
                    (basename (SetupVectorstore.path_join dir (n +:+ ".pdf")))
                  = n).
  { unfold LangchainRag.allowed_docs in Hn.
    repeat (apply elem_of_cons in Hn as [->|Hn];
            [by rewrite basename_path_join, remove_all_extension |]).
    by apply elem_of_nil in Hn. }
  unfold SetupVectorstore.process_pdf in Hrun. rewrite Hname in Hrun.
  apply tag_chunks_inv in Hrun.
  apply list_elem_of_lookup in Hc as [i Hi].
  destruct (Forall2_lookup_r _ _ _ _ _ Hrun Hi) as (c0 & _ & j & Hj).
  apply tag_chunk_names in Hj as [Hdoc Hurl].
  unfold LangchainRag.passes_filter, LangchainRag.cited,
    LangchainRag.title_of, dict_get.
  rewrite Hdoc, Hurl. simpl.
  unfold LangchainRag.allowed_docs in Hn |- *.
  repeat (apply elem_of_cons in Hn as [->|Hn];
          [split; [reflexivity|]; eexists _, _;
           split; [reflexivity|]; split; [reflexivity|];
           split; reflexivity |]).
  by apply elem_of_nil in Hn.
Qed.

End IngestThenCite.

Lemma allowed_document_is_citable_witness :
  LangchainRag.passes_filter LangchainRag.allowed_docs
    SetupVectorstore.sample_chunk = true.
Proof.
  apply (allowed_document_is_citable SetupVectorstore.sample_load
           SetupVectorstore.sample_split "data/demo_docs"
           "security-operations" SetupVectorstore.sample_chunks
           SetupVectorstore.sample_chunk).
  - repeat constructor.
  - vm_compute. reflexivity.
  - vm_compute. constructor.
Defined.

Lemma ask_question_three_shapes_witness :
  ∃ s' resp,
    Scripted.ask Scripted.reset_question
      (Scripted.fresh Scripted.empty_index_world) = (s', Ok resp)
    ∧ LangchainRag.resp_get resp "references" = None.
Proof.
  destruct (ask_question_three_shapes Scripted.script
              Scripted.retriever_invoke Scripted.llm_invoke
              Scripted.reset_question
              (Scripted.fresh Scripted.empty_index_world))
    as (s' & resp & Hask & _ & _ & Hmiss & _).
  exists s', resp. split; [exact Hask|].
  apply Hmiss. left.
  vm_compute in Hask. injection Hask as _ <-. reflexivity.
Defined.

Lemma ask_question_call_budget_witness :
  (LangchainRag.llm_calls
     (LangchainRag.trace
        (Scripted.ask Scripted.reset_question
           (Scripted.fresh Scripted.drifting_world)).1) ≤ 1)%nat.
Proof.
  apply (ask_question_call_budget Scripted.script
           Scripted.retriever_invoke Scripted.llm_invoke
           Scripted.reset_question
           (Scripted.fresh Scripted.drifting_world)
           (Scripted.ask Scripted.reset_question
              (Scripted.fresh Scripted.drifting_world)).1
           (Scripted.ask Scripted.reset_question
              (Scripted.fresh Scripted.drifting_world)).2).
  vm_compute. reflexivity.
Defined.

Lemma ask_question_empty_chain_retrieval_witness :
  ∃ s',
    Scripted.ask Scripted.reset_question
      (Scripted.fresh Scripted.fading_world)
    = (s', Ok (LangchainRag.success_response Scripted.reset_question
                 "I could not find that."
                 (LangchainRag.build_references [Scripted.password_chunk]))).
Proof.
  destruct (ask_question_empty_chain_retrieval Scripted.script
              Scripted.retriever_invoke Scripted.llm_invoke
              Scripted.reset_question
              (Scripted.fresh Scripted.fading_world)
              (Scripted.answering [ [] ] "I could not find that.")
              Scripted.password_chunk []
              (Scripted.answering [] "I could not find that.")
              {| Scripted.connection := Ok tt; Scripted.retrievals := [];
                 Scripted.completions := [] |}
              "I could not find that.")
    as (s' & Hask & _).
  - reflexivity.
  - reflexivity.
  - reflexivity.
  - exists s'. exact Hask.
Defined.

Lemma prompt_carries_answered_turns_witness :
  ∃ context,
    last (LangchainRag.trace
            (Scripted.ask Scripted.domain_question
               Scripted.after_first_answer).1)
    = Some (LangchainRag.LLMInvoke
              [ LangchainRag.SystemMessage
                  (LangchainRag.system_prompt context Scripted.domain_question);
                LangchainRag.HumanMessage Scripted.reset_question;
                LangchainRag.AIMessage "Run the reset-password command.";
                LangchainRag.HumanMessage Scripted.domain_question ]).
Proof.
  destruct (prompt_carries_answered_turns Scripted.script
              Scripted.retriever_invoke Scripted.llm_invoke
              [Scripted.reset_question] Scripted.domain_question
              (Scripted.fresh Scripted.two_answers_world)
              Scripted.after_first_answer
              (LangchainRag.ask_each Scripted.script Scripted.retriever_invoke
                 Scripted.llm_invoke [Scripted.reset_question]
                 (Scripted.fresh Scripted.two_answers_world)).2
              (Scripted.ask Scripted.domain_question
                 Scripted.after_first_answer).1
              (LangchainRag.success_response Scripted.domain_question
                 "Join the server to the domain."
                 (LangchainRag.build_references [Scripted.identity_chunk]))
              (LangchainRag.build_references [Scripted.identity_chunk]))
    as (context & Hlast).
  - reflexivity.
  - vm_compute. reflexivity.
  - vm_compute. reflexivity.
  - reflexivity.
  - exists context. exact Hlast.
Defined.

Lemma clear_memory_forgets_witness :
  LangchainRag.get_conversation_history
    (LangchainRag.ask_each Scripted.script Scripted.retriever_invoke
       Scripted.llm_invoke [Scripted.domain_question]
       (LangchainRag.clear_memory Scripted.after_first_answer)).1
  = [ {| LangchainRag.turn_question := Scripted.domain_question;
         LangchainRag.turn_answer := "Join the server to the domain." |} ].
Proof.
  apply (clear_memory_forgets Scripted.script Scripted.retriever_invoke
           Scripted.llm_invoke [Scripted.domain_question]
           Scripted.after_first_answer _
           (LangchainRag.ask_each Scripted.script Scripted.retriever_invoke
              Scripted.llm_invoke [Scripted.domain_question]
              (LangchainRag.clear_memory Scripted.after_first_answer)).2).
  vm_compute. reflexivity.
Defined.

Lemma test_retrieval_swallows_errors_witness :
  ∃ s',
    LangchainRag.test_retrieval Scripted.script Scripted.retriever_invoke
      Scripted.reset_question
      (Scripted.fresh
         {| Scripted.connection := Ok tt;
            Scripted.retrievals := [Raise (Exception "timeout")];
            Scripted.completions := [] |}) = (s', Ok []).
Proof.
  destruct (test_retrieval_swallows_errors Scripted.script
              Scripted.retriever_invoke Scripted.reset_question
              (Scripted.fresh
                 {| Scripted.connection := Ok tt;
                    Scripted.retrievals := [Raise (Exception "timeout")];
                    Scripted.completions := [] |}))
    as (s' & docs & Hrun & _ & _ & _ & Hraise).
  exists s'.
  destruct (Hraise {| Scripted.connection := Ok tt; Scripted.retrievals := [];
                      Scripted.completions := [] |}
                   (Exception "timeout") eq_refl) as [<- _].
  exact Hrun.
Defined.

Lemma test_loop_stops_at_first_answer_witness :
  ∃ q a,
    q ∈ [Scripted.reset_question; Scripted.domain_question]
    ∧ LangchainRag.messages
        (LangchainRag.ask_all Scripted.script Scripted.retriever_invoke
           Scripted.llm_invoke
           [Scripted.reset_question; Scripted.domain_question]
           (Scripted.fresh Scripted.two_answers_world)).1
      = [LangchainRag.HumanMessage q; LangchainRag.AIMessage a].
Proof.
  apply (test_loop_stops_at_first_answer Scripted.script
           Scripted.retriever_invoke Scripted.llm_invoke
           [Scripted.reset_question; Scripted.domain_question]
           (Scripted.fresh Scripted.two_answers_world)
           (LangchainRag.ask_all Scripted.script Scripted.retriever_invoke
              Scripted.llm_invoke
              [Scripted.reset_question; Scripted.domain_question]
              (Scripted.fresh Scripted.two_answers_world)).1
           (Raise (Exception "'confidence'"))).
  vm_compute. reflexivity.
Defined.

Lemma main_succeeds_only_without_answers_witness :
  ∃ w1 s1 docs s2,
    Scripted.connect Scripted.empty_index_world = (w1, Ok tt)
    ∧ LangchainRag.test_retrieval Scripted.script Scripted.retriever_invoke
        "How to troubleshoot Azure VM startup failures?"
        {| LangchainRag.world := w1; LangchainRag.messages := [];
           LangchainRag.trace := [] |} = (s1, Ok docs)
    ∧ LangchainRag.ask_all Scripted.script Scripted.retriever_invoke
        Scripted.llm_invoke LangchainRag.test_questions s1 = (s2, Ok tt)
    ∧ LangchainRag.messages s2 = []
    ∧ LangchainRag.world s2 = Scripted.empty_index_world.
Proof.
  apply (main_succeeds_only_without_answers Scripted.script Scripted.connect
           Scripted.retriever_invoke Scripted.llm_invoke
           Scripted.empty_index_world Scripted.empty_index_world).
  vm_compute. reflexivity.
Defined.
